(** * StreamlitProcurement: extraction pipeline, review store and template filler

    A shallow embedding of [StreamlitProcurement.py].  Python [str] values are
    Rocq [string]s, one [ascii] per character (texts over the code points
    below 256; the messages shown to the user are kept as the bytes of the
    source file).  The worksheet of the uploaded template is a finite map
    from (row, column) to cells, rows and columns being 1-based ([positive])
    as in openpyxl.  The remote model is an oracle whose calls are logged;
    a run of the script is a computation in a small state-and-exception
    monad over that log. *)

From Stdlib Require Import ZArith Lia Ascii String.
From stdpp Require Import gmap strings list sorting.

(** ** Python [str] operations used by the script *)

Module Str.

(** Characters removed by [str.strip()] (those with [str.isspace()] true),
    among the code points below 256. *)
Definition is_space (c : ascii) : bool :=
  let n := N_of_ascii c in
  ((9 <=? n) && (n <=? 13) || (28 <=? n) && (n <=? 32)
   || (n =? 133) || (n =? 160))%N.

Definition is_empty (s : string) : bool :=
  match s with "" => true | _ => false end.

Fixpoint lstrip (s : string) : string :=
  match s with
  | "" => ""
  | String c s' => if is_space c then lstrip s' else s
  end.

Fixpoint rstrip (s : string) : string :=
  match s with
  | "" => ""
  | String c s' =>
      let r := rstrip s' in
      if is_space c && is_empty r then "" else String c r
  end.

(** [s.strip()] *)
Definition strip (s : string) : string := lstrip (rstrip s).

(** [s.split(c)] for a one-character separator [c]: never the empty list. *)
Fixpoint split (c : ascii) (s : string) : list string :=
  match s with
  | "" => [""]
  | String a s' =>
      if decide (a = c) then "" :: split c s'
      else match split c s' with
           | p :: ps => String a p :: ps
           | [] => [String a ""]
           end
  end.

(** [sep.join(l)] *)
Definition join (sep : string) (l : list string) : string :=
  String.concat sep l.

(** [s.startswith(p)] *)
Fixpoint startswith (p s : string) : bool :=
  match p, s with
  | "", _ => true
  | String a p', String b s' => if decide (a = b) then startswith p' s' else false
  | String _ _, "" => false
  end.

(** [p in s] (substring test, as [re.search] of an escaped literal). *)
Fixpoint contains (p s : string) : bool :=
  startswith p s
  || match s with "" => false | String _ s' => contains p s' end.

(** [list(s)]: the characters of [s], each as a one-character string. *)
Fixpoint chars (s : string) : list string :=
  match s with
  | "" => []
  | String c s' => String c "" :: chars s'
  end.

Definition nl : ascii := "010"%char.
Definition newline : string := String nl "".

(** [s[n:]] *)
Fixpoint drop (n : nat) (s : string) : string :=
  match n, s with
  | S k, String _ s' => drop k s'
  | _, _ => s
  end.

(** The strings of a list, one after the other: ["".join(l)]. *)
Definition flat (l : list string) : string := foldr String.append "" l.

(** [s[:n]] *)
Fixpoint take (n : N) (s : string) : string :=
  match s with
  | "" => ""
  | String c s' => if (n =? 0)%N then "" else String c (take (N.pred n) s')
  end.

(** Whether some character of [s] satisfies [f]. *)
Fixpoint any (f : ascii → bool) (s : string) : bool :=
  match s with
  | "" => false
  | String c s' => f c || any f s'
  end.

End Str.

(** ** The openpyxl worksheet

    The active sheet of the workbook: the cells that exist, by (row, column).
    A cell that does not exist reads as an empty cell.  Cell values are the
    ones a header or a body cell can hold; the script only ever writes
    strings.  A string is checked before it is bound to a cell: it is cut
    to 32767 characters and refused when it holds a control character. *)

Inductive cell_value :=
  | VNone
  | VStr (s : string)
  | VNum (n : Z).

Global Instance cell_value_eq_dec : EqDecision cell_value.
Proof. solve_decision. Defined.

Global Instance cell_value_countable : Countable cell_value.
Proof.
  refine (inj_countable'
    (λ v, match v with
          | VNone => inl ()
          | VStr s => inr (inl s)
          | VNum n => inr (inr n)
          end)
    (λ x, match x with
          | inl _ => VNone
          | inr (inl s) => VStr s
          | inr (inr n) => VNum n
          end) _).
  by intros [].
Defined.

Record cell := Cell { value : cell_value; wrap_text : bool }.

Global Instance cell_eq_dec : EqDecision cell.
Proof. solve_decision. Defined.

Definition empty_cell : cell := Cell VNone false.

Abbreviation sheet := (gmap (positive * positive) cell).

(** [sheet.cell(row, column)] read. *)
Definition get_cell (sh : sheet) (row column : positive) : cell :=
  default empty_cell (sh !! (row, column)).

(** The characters openpyxl refuses in a cell: the control characters other
    than tab, line feed and carriage return (0-8, 11-12, 14-31). *)
Definition is_illegal (c : ascii) : bool :=
  let n := N_of_ascii c in
  ((n <=? 8) || (11 <=? n) && (n <=? 12) || (14 <=? n) && (n <=? 31))%N.

(** [Cell.check_string]: the string is cut to 32767 characters, and the rest
    is refused ([IllegalCharacterError]) when it holds an illegal
    character. *)
Definition check_string (value : string) : option string :=
  let value := Str.take 32767 value in
  if Str.any is_illegal value then None else Some value.

(** The cell at (row, column), made empty when it does not exist yet. *)
Definition create_cell (sh : sheet) (row column : positive) : sheet :=
  match sh !! (row, column) with
  | Some _ => sh
  | None => <[(row, column) := empty_cell]> sh
  end.

(** [cell.value = s] for a checked string: the value is replaced, the cell's
    style is kept. *)
Definition bind_value (sh : sheet) (row column : positive) (s : string) : sheet :=
  <[(row, column) := Cell (VStr s) (wrap_text (get_cell sh row column))]> sh.

(** A write either goes through or raises [IllegalCharacterError] for the
    value refused; both leave a sheet behind. *)
Inductive write_result :=
  | Wrote (sh : sheet)
  | Refused (sh : sheet) (value : string).

Definition sheet_of (r : write_result) : sheet :=
  match r with
  | Wrote sh => sh
  | Refused sh _ => sh
  end.

Definition and_then (r : write_result) (k : sheet → write_result) : write_result :=
  match r with
  | Wrote sh => k sh
  | Refused sh value => Refused sh value
  end.

(** [sheet.cell(row=r, column=c, value=s)]: the cell is fetched or created,
    then [s] (a string, hence not [None]) is checked and bound to it. *)
Definition set_value (sh : sheet) (row column : positive) (s : string) : write_result :=
  let sh := create_cell sh row column in
  match check_string s with
  | Some value => Wrote (bind_value sh row column value)
  | None => Refused sh (Str.take 32767 s)
  end.

(** [cell.alignment = Alignment(wrap_text=True)] *)
Definition set_wrap (sh : sheet) (row column : positive) : sheet :=
  <[(row, column) := Cell (value (get_cell sh row column)) true]> sh.

(** [sheet.max_column]: the largest column of an existing cell, 1 for an
    empty sheet. *)
Definition max_column (sh : sheet) : positive :=
  foldr Pos.max 1%positive ((λ kv, kv.1.2) <$> map_to_list sh).

(** The columns [1 .. n], in the order [iter_cols(1, n)] yields them. *)
Definition columns (n : positive) : list positive :=
  Pos.of_nat <$> seq 1 (Pos.to_nat n).

(** [col[0].value]: the header of a column is its cell in row 1. *)
Definition header (sh : sheet) (column : positive) : cell_value :=
  value (get_cell sh 1 column).

(** The first row, as [sheet.iter_cols(1, sheet.max_column)] reads it. *)
Definition headers (sh : sheet) : list cell_value :=
  header sh <$> columns (max_column sh).

(** [{col[0].value: col[0].column for col in sheet.iter_cols(1, sheet.max_column)}]:
    a later column with the same header replaces an earlier one. *)
Definition col_indices (sh : sheet) : gmap cell_value positive :=
  foldl (λ d c, <[header sh c := c]> d) ∅ (columns (max_column sh)).

(** ** The "Fill Template" handler (lines 110-133) *)

Inductive openpyxl_error :=
  | IllegalCharacterError (value : string).

Inductive ui_event :=
  | UiSuccess (msg : string)
  | UiDownload (label : string) (data : sheet) (file_name : string)
  | UiError (msg : string)
  | UiException (e : openpyxl_error).

(** What a run of the handler leaves behind: the sheet of the workbook [wb]
    held in memory, the workbook saved under [output_path], if any, and the
    messages shown.  An exception raised by the handler is not caught: it
    ends the run, which is the handler's last step, and is shown to the
    user. *)
Record fill_report := FillReport {
  workbook : sheet;
  saved : option (string * sheet);
  shown : list ui_event
}.

(** The loop over [st.session_state["edited_data"]], [row_idx] going up by
    one per line; it ends at the first value that is refused. *)
Fixpoint fill_rows (desc_col : positive) (desc2_col : option positive)
    (edited_data : list string) (row_idx : positive) (sh : sheet) : write_result :=
  match edited_data with
  | [] => Wrote sh
  | row_text :: rest =>
      and_then (set_value sh row_idx desc_col row_text) (λ sh,
      let sh := set_wrap sh row_idx desc_col in
      and_then
        (match desc2_col with
         | Some c2 => set_value sh row_idx c2 ""
         | None => Wrote sh
         end) (λ sh,
      fill_rows desc_col desc2_col rest (Pos.succ row_idx) sh))
  end.

Definition fill_template (template : sheet) (edited_data : list string) : fill_report :=
  let col_indices := col_indices template in
  let desc_col := col_indices !! VStr "Description" in
  let desc2_col := col_indices !! VStr "Description 2" in
  match desc_col with
  | Some desc_col =>
      match fill_rows desc_col desc2_col edited_data 2 template with
      | Wrote wb =>
          let output_path := "updated_template.xlsx" in
          FillReport wb (Some (output_path, wb))
            [UiSuccess "✅ Data filled successfully!";
             UiDownload "📥 Download Updated Excel" wb "updated_template.xlsx"]
      | Refused wb value =>
          FillReport wb None [UiException (IllegalCharacterError value)]
      end
  | None =>
      FillReport template None [UiError "⚠️ 'Description' column not found in Excel template."]
  end.

(** The rows as the loop writes them when every value is accepted: [values]
    are the strings bound to the Description cells, one per row. *)
Fixpoint write_rows (desc_col : positive) (desc2_col : option positive)
    (values : list string) (row_idx : positive) (sh : sheet) : sheet :=
  match values with
  | [] => sh
  | v :: rest =>
      let sh := set_wrap (bind_value sh row_idx desc_col v) row_idx desc_col in
      let sh :=
        match desc2_col with
        | Some c2 => bind_value sh row_idx c2 ""
        | None => sh
        end in
      write_rows desc_col desc2_col rest (Pos.succ row_idx) sh
  end.

(** A template given by its rows, for examples: row [i], column [j] holds the
    [j]-th value of the [i]-th list. *)
Definition sheet_of_rows (rows : list (list cell_value)) : sheet :=
  list_to_map
    (concat (imap (λ i r, imap (λ j v, ((Pos.of_nat (S i), Pos.of_nat (S j)), Cell v false)) r) rows)).

Definition template3 : sheet :=
  sheet_of_rows [[VStr "ID"; VStr "Description"; VStr "Description 2"];
                 [VNum 1; VStr "old"; VStr "old 2"];
                 [VNum 2; VNone; VStr "old 3"];
                 [VNum 3; VStr "keep"; VStr "keep 2"]].


(** ** The chunk splitter

    [process_document] builds [RecursiveCharacterTextSplitter(chunk_size=5000,
    chunk_overlap=0)] and calls its [split_text].  The class belongs to the
    langchain library and its code is not part of the repository; the
    definitions of this module follow the spec's description of the
    component (section 4.2), in the shape the library gives it. *)

Module Splitter.

(** Modelled from the spec: the separators of the missing splitter, "natural
    boundaries (paragraph, sentence, word) before falling back to hard
    character cuts": blank line, newline, space, and the empty separator
    that cuts between any two characters. *)
Definition separators : list string :=
  [String Str.nl (String Str.nl ""); Str.newline; " "; ""].

(** Modelled from the spec: the missing splitter cuts a text at the
    occurrences of a separator, leftmost first and without overlap
    ([re.split] of the escaped separator).  [re_split_go sep skip text] gives
    the pieces between the occurrences; [skip] counts the characters of an
    occurrence still to pass. *)
Fixpoint re_split_go (sep : string) (skip : nat) (text : string) : list string :=
  match text with
  | "" => [""]
  | String c rest =>
      match skip with
      | S k => re_split_go sep k rest
      | O =>
          if Str.startswith sep text
          then "" :: re_split_go sep (String.length sep - 1) rest
          else match re_split_go sep 0 rest with
               | p :: ps => String c p :: ps
               | [] => [String c ""]
               end
      end
  end.

(** Modelled from the spec: the pieces of [text] between the occurrences of
    [sep], for the missing splitter. *)
Definition re_split (sep text : string) : list string := re_split_go sep 0 text.

(** Modelled from the spec: the missing splitter keeps each separator at the
    start of the piece that follows it, so that no character of the text is
    dropped by the cut; the empty separator gives the single characters.
    Empty pieces are left out. *)
Definition split_text_with_regex (text separator : string) : list string :=
  let splits :=
    if Str.is_empty separator then Str.chars text
    else match re_split separator text with
         | [] => []
         | p0 :: ps => p0 :: ((λ p, separator +:+ p) <$> ps)
         end in
  filter (λ s, s ≠ "") splits.

(** Modelled from the spec: a chunk of the missing splitter is the pieces of
    its source range joined and trimmed ("boundary whitespace adjustments");
    a range of whitespace only gives no chunk. *)
Definition join_docs (docs : list string) (separator : string) : option string :=
  let text := Str.strip (Str.join separator docs) in
  if Str.is_empty text then None else Some text.

(** Modelled from the spec: the length a separator adds when the missing
    splitter joins pieces, counted only between two pieces. *)
Definition sep_if (b : bool) (separator_len : nat) : nat :=
  if b then separator_len else 0.

(** Modelled from the spec: after a chunk is emitted the missing splitter
    drops pieces from the front of the current range while more than
    [chunk_overlap] characters of it remain ("zero overlap": all of them, for
    [chunk_overlap = 0]).  [total] is the length of [current_doc] joined, so
    the range is never empty while the loop runs. *)
Fixpoint pop_docs (chunk_size chunk_overlap separator_len len_d total : nat)
    (current_doc : list string) : nat * list string :=
  if (chunk_overlap <? total)
     || ((chunk_size <? total + len_d + sep_if (0 <? length current_doc) separator_len)
         && (0 <? total))
  then match current_doc with
       | [] => (total, [])
       | d0 :: rest =>
           pop_docs chunk_size chunk_overlap separator_len len_d
             (total - (String.length d0 + sep_if (1 <? length current_doc) separator_len))
             rest
       end
  else (total, current_doc).

(** Modelled from the spec: the greedy merge of the missing splitter: pieces
    are added to the current range while it stays within [chunk_size]
    ("targeting a maximum chunk size"); the range is emitted as a chunk when
    the next piece would not fit. *)
Fixpoint merge_loop (chunk_size chunk_overlap : nat) (separator : string)
    (splits docs current_doc : list string) (total : nat) : list string :=
  match splits with
  | [] => docs ++ option_list (join_docs current_doc separator)
  | d :: splits' =>
      let separator_len := String.length separator in
      let len_d := String.length d in
      let '(docs, current_doc, total) :=
        if (chunk_size <? total + len_d + sep_if (0 <? length current_doc) separator_len)
           && (0 <? length current_doc)
        then
          let docs := docs ++ option_list (join_docs current_doc separator) in
          let '(total, current_doc) :=
            pop_docs chunk_size chunk_overlap separator_len len_d total current_doc in
          (docs, current_doc, total)
        else (docs, current_doc, total) in
      let current_doc := current_doc ++ [d] in
      let total := total + len_d + sep_if (1 <? length current_doc) separator_len in
      merge_loop chunk_size chunk_overlap separator splits' docs current_doc total
  end.

(** Modelled from the spec: the merge of the missing splitter, from no chunk
    and an empty range. *)
Definition merge_splits (chunk_size chunk_overlap : nat) (splits : list string)
    (separator : string) : list string :=
  merge_loop chunk_size chunk_overlap separator splits [] [] 0.

(** Modelled from the spec: the missing splitter merges the pieces collected
    so far into chunks (separators were kept in the pieces, so they are
    joined with the empty string). *)
Definition flush (chunk_size chunk_overlap : nat)
    (good_splits final_chunks : list string) : list string :=
  match good_splits with
  | [] => final_chunks
  | _ => final_chunks ++ merge_splits chunk_size chunk_overlap good_splits ""
  end.

(** Modelled from the spec: the missing splitter is "recursive": a piece
    shorter than [chunk_size] is kept for merging, a longer one is split
    again with the finer separators ([recurse]), or kept whole when none is
    left. *)
Fixpoint split_loop (chunk_size chunk_overlap : nat)
    (recurse : option (string → list string))
    (splits good_splits final_chunks : list string) : list string :=
  match splits with
  | [] => flush chunk_size chunk_overlap good_splits final_chunks
  | s :: splits' =>
      if String.length s <? chunk_size
      then split_loop chunk_size chunk_overlap recurse splits' (good_splits ++ [s]) final_chunks
      else
        let final_chunks := flush chunk_size chunk_overlap good_splits final_chunks in
        let final_chunks :=
          final_chunks ++ match recurse with
                          | None => [s]
                          | Some f => f s
                          end in
        split_loop chunk_size chunk_overlap recurse splits' [] final_chunks
  end.

(** Modelled from the spec: the missing splitter is "boundary-aware": the
    text is cut at the first separator of the list that occurs in it (the
    empty separator always does), the finer separators being left for the
    pieces that are still too long. *)
Fixpoint split_text_rec (chunk_size chunk_overlap : nat) (separators : list string)
    (text : string) {struct separators} : list string :=
  match separators with
  | [] => []
  | s :: rest =>
      if Str.is_empty s
      then split_loop chunk_size chunk_overlap None (split_text_with_regex text "") [] []
      else if Str.contains s text
      then split_loop chunk_size chunk_overlap
             (match rest with
              | [] => None
              | _ => Some (split_text_rec chunk_size chunk_overlap rest)
              end)
             (split_text_with_regex text s) [] []
      else match rest with
           | [] => split_loop chunk_size chunk_overlap None (split_text_with_regex text s) [] []
           | _ => split_text_rec chunk_size chunk_overlap rest text
           end
  end.

(** Modelled from the spec: [split(text)] of the Chunk Splitter, the missing
    [RecursiveCharacterTextSplitter(chunk_size, chunk_overlap).split_text]. *)
Definition split_text (chunk_size chunk_overlap : nat) (text : string) : list string :=
  split_text_rec chunk_size chunk_overlap separators text.

(** Modelled from the spec: the chunk the missing splitter gives for a source
    range, if any. *)
Definition chunk_of_range (r : string) : option string := join_docs [r] "".

(** [chunks] split [text] within [chunk_size]: the text is cut into
    consecutive ranges (none lost, none overlapping), each of at most
    [chunk_size] characters, and the chunks are the ranges trimmed, in
    order, the ranges of whitespace only left out. *)
Definition chunking (chunk_size : nat) (text : string) (chunks : list string) : Prop :=
  ∃ ranges : list string,
    Str.flat ranges = text
    ∧ Forall (λ r, String.length r ≤ chunk_size) ranges
    ∧ chunks = omap chunk_of_range ranges.

End Splitter.


(** ** The remote model and the effects of a run

    [llm.invoke] is an oracle: given the prompts sent so far and the new
    prompt, it answers with the response's content or fails with an error of
    the remote service.  A computation threads the log of prompts sent and
    stops at the first exception, as the Python code does. *)

Inductive llm_error := NetworkError | AuthError | RateLimitError.

Inductive exn :=
  | LlmError (e : llm_error)
  | KeyError (key : string).

Inductive result (A : Type) :=
  | Ok (a : A)
  | Raise (e : exn).
Arguments Ok {A} a.
Arguments Raise {A} e.

Definition llm : Type := list string → string → string + llm_error.

Definition M (A : Type) : Type := list string → result A * list string.

Global Instance M_ret : MRet M := λ A a log, (Ok a, log).

Global Instance M_bind : MBind M := λ A B f m log,
  match m log with
  | (Ok a, log') => f a log'
  | (Raise e, log') => (Raise e, log')
  end.

Definition raise {A} (e : exn) : M A := λ log, (Raise e, log).

(** [llm.invoke([HumanMessage(content=prompt)]).content] *)
Definition invoke (remote : llm) (prompt : string) : M string := λ log,
  (match remote log prompt with
   | inl content => Ok content
   | inr e => Raise (LlmError e)
   end, log ++ [prompt]).

(** ** Text extraction (lines 31-44)

    An uploaded file is its name together with what the parsing libraries
    read from it: the text of each page for pdfplumber ([None] or the empty
    string for a page without text), the paragraphs' text for python-docx. *)

Record upload := Upload {
  name : string;
  pdf_pages : list (option string);
  docx_paragraphs : list string
}.

Definition extract_text_from_pdf (pdf_path : upload) : string :=
  Str.strip
    (foldl (λ text page_text,
              match page_text with
              | Some t => if Str.is_empty t then text else text +:+ t +:+ Str.newline
              | None => text
              end) "" (pdf_pages pdf_path)).

Definition extract_text_from_docx (docx_path : upload) : string :=
  Str.join Str.newline
    (Str.strip <$> filter (λ p, Str.strip p ≠ "") (docx_paragraphs docx_path)).

(** ** [process_document] (lines 47-81) *)

Definition prompt (chunk : string) : string :=
  "
        Analyze the document properly, extract main & subitems properly and their descriptions from the following text:
        " +:+ chunk +:+ "
        
        **Formatting Rules:**
        - Extract all item names and descriptions in a structured manner. DO NOT add any extra comments!
        - Do not extract Price!
        - Maintain logical sentence breaks.
        - Format the extracted data properly for user readability.
        - Each line should have max **45 characters**.
        - Do **not** split words in half when breaking lines.
        - If exceeding 45 characters, split into a new row.

        Do not add any extra symbols before the answer.
        Do not add unnecessary gaps in between output.
        Do not add any extra words/comment in the answer. Strictly follow formatting rules.
        ".

(** [file.name.split(".")[-1]] *)
Definition file_extension (file : upload) : string :=
  List.last (Str.split "." (name file)) "".

(** The text [process_document] works on (line 49). *)
Definition document_text (file : upload) : string :=
  let file_extension := file_extension file in
  if decide (file_extension = "pdf") then extract_text_from_pdf file
  else if decide (file_extension = "docx") then extract_text_from_docx file
  else "".

(** The loop over [text_chunks] (lines 59-79). *)
Fixpoint extract_chunks (remote : llm) (text_chunks extracted_data : list string)
    : M (list string) :=
  match text_chunks with
  | [] => mret extracted_data
  | chunk :: rest =>
      response ← invoke remote (prompt chunk);
      extract_chunks remote rest (extracted_data ++ [Str.strip response])
  end.

Definition process_document (remote : llm) (file : upload) : M (option (list string)) :=
  let text := document_text file in
  if Str.is_empty text then mret None
  else
    let text_chunks := Splitter.split_text 5000 0 text in
    extracted_data ← extract_chunks remote text_chunks [];
    mret (Some extracted_data).

(** ** The script: session state and one run (lines 86-133)

    [st.session_state] holds three keys; each is absent ([None]) or present.
    The value under ["extracted_data"] is what [process_document] returned,
    [None] included. *)

Record session_state := Session {
  extracted_data : option (option (list string));
  file_name : option string;
  edited_data : option (list string)
}.

Definition empty_session : session_state := Session None None None.

(** The widgets of one run: the two uploaders, the content of the review
    text area as a function of the default it is given (the identity when
    the user edits nothing), and whether "Fill Template" was clicked. *)
Record widgets := Widgets {
  uploaded_file : option upload;
  excel_template : option sheet;
  text_area : string → string;
  fill_clicked : bool
}.

(** Lines 90-93. *)
Definition store_extraction (remote : llm) (w : widgets) (ss : session_state)
    : M session_state :=
  match uploaded_file w with
  | Some file =>
      let rerun :=
        data ← process_document remote file;
        mret (Session (Some data) (Some (name file)) (edited_data ss)) in
      match extracted_data ss with
      | None => rerun
      | Some _ =>
          match file_name ss with
          | None => raise (KeyError "file_name")
          | Some stored => if decide (stored ≠ name file) then rerun else mret ss
          end
      end
  | None => mret ss
  end.

(** Lines 96-133: the review area and the fill button. *)
Definition review (w : widgets) (ss : session_state)
    : session_state * option fill_report :=
  match extracted_data ss with
  | Some (Some ((_ :: _) as data)) =>
      let formatted_text := Str.join Str.newline data in
      let edited_text := text_area w formatted_text in
      let lines := Str.split Str.nl edited_text in
      let ss := Session (extracted_data ss) (file_name ss) (Some lines) in
      match excel_template w with
      | Some template =>
          if fill_clicked w then (ss, Some (fill_template template lines))
          else (ss, None)
      | None => (ss, None)
      end
  | _ => (ss, None)
  end.

Definition script (remote : llm) (w : widgets) (ss : session_state)
    : M (session_state * option fill_report) :=
  ss ← store_extraction remote w ss;
  mret (review w ss).

(** A run of the script on a session: an uncaught exception ends the run and
    leaves the session state as it was. *)
Definition run (remote : llm) (w : widgets) (st : session_state * list string)
    : session_state * list string :=
  match script remote w st.1 st.2 with
  | (Ok (ss, _), log) => (ss, log)
  | (Raise _, log) => (st.1, log)
  end.

(** The session after a sequence of runs, from a fresh session. *)
Definition session_after (remote : llm) (ws : list widgets) : session_state * list string :=
  foldl (λ st w, run remote w st) (empty_session, []) ws.

(** The first failure of the remote service in a loop over [chunks] that
    starts with [log] already sent: the calls for the chunks before index [i]
    are answered, the call for chunk [i] fails with [e]. *)
Fixpoint first_failure (remote : llm) (log chunks : list string) (i : nat)
    (e : llm_error) : Prop :=
  match chunks with
  | [] => False
  | chunk :: rest =>
      match i with
      | O => remote log (prompt chunk) = inr e
      | S j => (∃ content, remote log (prompt chunk) = inl content)
               ∧ first_failure remote (log ++ [prompt chunk]) rest j e
      end
  end.

(** The exception a computation ended with, if any. *)
Definition raised {A} (r : result A * list string) : option exn :=
  match r.1 with
  | Raise e => Some e
  | Ok _ => None
  end.

(** Example data: a service that always answers with two lines, one that is
    always rate-limited, one that is rate-limited from the second call on;
    a one-page PDF, a PDF without text, a file of another type. *)
Definition two_lines : string := "Item A
Item B".
Definition remote_ok : llm := λ _ _, inl two_lines.
Definition remote_down : llm := λ _ _, inr RateLimitError.
Definition remote_second_fails : llm := λ log _,
  match log with
  | [] => inl two_lines
  | _ => inr RateLimitError
  end.
Definition doc_a : upload := Upload "a.pdf" [Some "Pump, 3 kW"; None] [].
Definition doc_scan : upload := Upload "b.pdf" [None; Some ""] [].
Definition doc_txt : upload := Upload "notes.txt" [Some "Pump"] ["Pump"].
Definition doc_c : upload := Upload "c.docx" [] ["  Valve DN50 "; "   "; "Flange"].
Definition upload_only (file : upload) : widgets := Widgets (Some file) None id false.

(** A text of 5005 characters: 1001 words, a space after each. *)
Definition long_text : string := Str.flat (replicate 1001 "item ").


(** The two keys written together are present together. *)
Definition keys_together (ss : session_state) : Prop :=
  extracted_data ss = None ↔ file_name ss = None.

Definition template_no_description : sheet :=
  sheet_of_rows [[VStr "ID"; VStr "description"; VStr "Description 2"; VNum 7];
                 [VNum 1; VStr "Description"; VStr "old 2"; VNone]].

(** ** Start-up (lines 13-29)

    [environ] is the process environment once [load_dotenv] has run: the
    variables that are set, by name.  [os.getenv] gives [None] for a variable
    that is not set. *)

Definition getenv (environ : gmap string string) (key : string) : option string :=
  environ !! key.

(** Truth value of what [os.getenv] returns: [None] and the empty string
    are false. *)
Definition truthy (v : option string) : bool :=
  match v with
  | Some s => negb (Str.is_empty s)
  | None => false
  end.

(** [all([OPENAI_DEPLOYMENT_NAME, AZURE_OPENAI_ENDPOINT, OPENAI_API_KEY])] *)
Definition configured (environ : gmap string string) : bool :=
  forallb truthy
    [getenv environ "OPENAI_DEPLOYMENT_NAME";
     getenv environ "AZURE_OPENAI_ENDPOINT";
     getenv environ "OPENAI_API_KEY"].

(** The whole script: lines 19-21 stop it before anything else runs when the
    settings are incomplete.  The result carries the message shown at
    start-up, if any. *)
Definition main (environ : gmap string string) (remote : llm) (w : widgets)
    (ss : session_state) : M (session_state * list ui_event * option fill_report) :=
  if negb (configured environ)
  then mret (ss, [UiError "Missing required environment variables. Check your .env file."],
             None)
  else r ← script remote w ss; mret (r.1, [], r.2).

Definition doc_blank : upload := Upload "blank.docx" [] ["   "; ""].
Definition environ_no_key : gmap string string :=
  {[ "OPENAI_DEPLOYMENT_NAME" := "gpt"; "AZURE_OPENAI_ENDPOINT" := "https://example.test";
     "OPENAI_API_KEY" := "" ]}.
Definition fill_widgets (file : upload) : widgets :=
  Widgets (Some file) (Some template3) id true.

(** * Properties *)

(** ** The worksheet *)

Section worksheet.
Implicit Types (sh : sheet) (r c : positive).

Lemma lookup_bind_value_ne sh r c s r' c' :
  (r, c) ≠ (r', c') → bind_value sh r c s !! (r', c') = sh !! (r', c').
Proof. intros. unfold bind_value. by rewrite lookup_insert_ne. Qed.

Lemma lookup_set_wrap_ne sh r c r' c' :
  (r, c) ≠ (r', c') → set_wrap sh r c !! (r', c') = sh !! (r', c').
Proof. intros. unfold set_wrap. by rewrite lookup_insert_ne. Qed.

Lemma get_cell_bind_value sh r c s :
  get_cell (bind_value sh r c s) r c = Cell (VStr s) (wrap_text (get_cell sh r c)).
Proof. unfold get_cell at 1, bind_value. by rewrite lookup_insert_eq. Qed.

Lemma get_cell_set_wrap sh r c :
  get_cell (set_wrap sh r c) r c = Cell (value (get_cell sh r c)) true.
Proof. unfold get_cell at 1, set_wrap. by rewrite lookup_insert_eq. Qed.

Lemma get_cell_lookup sh sh' r c :
  sh' !! (r, c) = sh !! (r, c) → get_cell sh' r c = get_cell sh r c.
Proof. unfold get_cell. by intros ->. Qed.

(** Each entry of the header dictionary points at a column that carries
    that header. *)
Lemma col_indices_lookup sh k c :
  col_indices sh !! k = Some c → c ∈ columns (max_column sh) ∧ header sh c = k.
Proof.
  unfold col_indices.
  assert (∀ cols (d : gmap cell_value positive),
            foldl (λ d c, <[header sh c := c]> d) d cols !! k = Some c →
            d !! k = Some c ∨ (c ∈ cols ∧ header sh c = k)) as Hgen.
  { induction cols as [|c0 cols IH]; intros d Hd; simpl in *; [by left|].
    destruct (IH _ Hd) as [Hins|[Hin Hh]].
    - destruct (decide (header sh c0 = k)) as [Heq|Hne].
      + rewrite Heq, lookup_insert_eq in Hins. inversion Hins; subst c0.
        right. split; [apply list_elem_of_here | done].
      + rewrite lookup_insert_ne in Hins by done. by left.
    - right. split; [by apply list_elem_of_further | done]. }
  intros H. destruct (Hgen _ _ H) as [Hempty|?]; [|done].
  by rewrite lookup_empty in Hempty.
Qed.

Lemma col_indices_header sh k c :
  col_indices sh !! k = Some c → k ∈ headers sh.
Proof.
  intros [Hin Hh]%col_indices_lookup. unfold headers.
  apply list_elem_of_fmap. eauto.
Qed.


End worksheet.

(** ** The fill loop *)

(** Reads at a position that a write did not touch: the side condition is
    that the two positions differ. *)
Ltac skip_writes :=
  repeat first
    [ rewrite lookup_bind_value_ne by (done || congruence)
    | rewrite lookup_set_wrap_ne by (done || congruence) ].

Section write_rows.
Context (desc_col : positive) (desc2_col : option positive).
Implicit Types (sh : sheet) (r c row_idx : positive) (lines : list string).

(** One pass of the loop body touches only the current row, and in it only
    the two description columns. *)
Lemma write_rows_cons row_text lines row_idx sh :
  write_rows desc_col desc2_col (row_text :: lines) row_idx sh =
  write_rows desc_col desc2_col lines (Pos.succ row_idx)
    (let sh1 := set_wrap (bind_value sh row_idx desc_col row_text) row_idx desc_col in
     match desc2_col with
     | Some c2 => bind_value sh1 row_idx c2 ""
     | None => sh1
     end).
Proof. reflexivity. Qed.

Lemma write_rows_other_column lines row_idx sh r c :
  c ≠ desc_col → Some c ≠ desc2_col →
  write_rows desc_col desc2_col lines row_idx sh !! (r, c) = sh !! (r, c).
Proof.
  intros Hc Hc2. revert row_idx sh.
  induction lines as [|t lines IH]; intros row_idx sh; [done|].
  rewrite write_rows_cons, IH. cbv zeta.
  destruct desc2_col as [c2|]; by skip_writes.
Qed.

Lemma write_rows_row_before lines row_idx sh r c :
  (r < row_idx)%positive →
  write_rows desc_col desc2_col lines row_idx sh !! (r, c) = sh !! (r, c).
Proof.
  revert row_idx sh.
  induction lines as [|t lines IH]; intros row_idx sh Hr; [done|].
  rewrite write_rows_cons, IH by lia. cbv zeta.
  assert (∀ c', (row_idx, c') ≠ (r, c)) as Hne by (intros c' [=]; lia).
  destruct desc2_col as [c2|]; by skip_writes.
Qed.

Lemma write_rows_row_after lines row_idx sh r c :
  Pos.to_nat row_idx + length lines ≤ Pos.to_nat r →
  write_rows desc_col desc2_col lines row_idx sh !! (r, c) = sh !! (r, c).
Proof.
  revert row_idx sh.
  induction lines as [|t lines IH]; intros row_idx sh Hr; [done|].
  simpl in Hr. rewrite write_rows_cons, IH by lia. cbv zeta.
  assert (∀ c', (row_idx, c') ≠ (r, c)) as Hne by (intros c' [=]; lia).
  destruct desc2_col as [c2|]; by skip_writes.
Qed.

(** Line [i] lands in row [row_idx + i] of the Description column, wrapped. *)
Lemma write_rows_description lines row_idx sh i t :
  desc2_col ≠ Some desc_col →
  lines !! i = Some t →
  get_cell (write_rows desc_col desc2_col lines row_idx sh)
    (Pos.of_nat (Pos.to_nat row_idx + i)) desc_col = Cell (VStr t) true.
Proof.
  intros Hcol. revert row_idx sh i.
  induction lines as [|t0 lines IH]; intros row_idx sh i Hi; [done|].
  rewrite write_rows_cons. destruct i as [|i]; simpl in Hi.
  - injection Hi as ->. rewrite Nat.add_0_r, Pos2Nat.id.
    erewrite get_cell_lookup; [|apply write_rows_row_before; lia]. cbv zeta.
    destruct desc2_col as [c2|].
    + erewrite get_cell_lookup; [|apply lookup_bind_value_ne; congruence].
      by rewrite get_cell_set_wrap, get_cell_bind_value.
    + by rewrite get_cell_set_wrap, get_cell_bind_value.
  - replace (Pos.to_nat row_idx + S i) with (Pos.to_nat (Pos.succ row_idx) + i) by lia.
    by apply IH.
Qed.

(** The Description 2 cell of every filled row holds the empty string; its
    style is the template's. *)
Lemma write_rows_description2 lines row_idx sh i c2 :
  desc2_col = Some c2 → c2 ≠ desc_col →
  i < length lines →
  get_cell (write_rows desc_col desc2_col lines row_idx sh)
    (Pos.of_nat (Pos.to_nat row_idx + i)) c2
  = Cell (VStr "") (wrap_text (get_cell sh (Pos.of_nat (Pos.to_nat row_idx + i)) c2)).
Proof.
  intros Hc2 Hne. revert row_idx sh i.
  induction lines as [|t0 lines IH]; intros row_idx sh i Hi; simpl in Hi; [lia|].
  rewrite write_rows_cons. destruct i as [|i].
  - rewrite Nat.add_0_r, Pos2Nat.id.
    erewrite get_cell_lookup; [|apply write_rows_row_before; lia]. cbv zeta.
    rewrite Hc2, get_cell_bind_value. f_equal. f_equal.
    apply get_cell_lookup. by skip_writes.
  - replace (Pos.to_nat row_idx + S i) with (Pos.to_nat (Pos.succ row_idx) + i) by lia.
    rewrite IH by lia. f_equal. f_equal. cbv zeta.
    apply get_cell_lookup. rewrite Hc2.
    assert (∀ c', (row_idx, c') ≠ (Pos.of_nat (Pos.to_nat (Pos.succ row_idx) + i), c2))
      as Hrow by (intros c' [=]; lia).
    by skip_writes.
Qed.

End write_rows.

(** The two description columns of a template are different columns. *)
Lemma description_columns_differ (template : sheet) (c c2 : positive) :
  col_indices template !! VStr "Description" = Some c →
  col_indices template !! VStr "Description 2" = Some c2 →
  c2 ≠ c.
Proof.
  intros [_ H1]%col_indices_lookup [_ H2]%col_indices_lookup ->. congruence.
Qed.

(** ** Checked writes *)

Lemma check_string_empty : check_string "" = Some "".
Proof. reflexivity. Qed.

Lemma lookup_create_cell_ne (sh : sheet) (r c r' c' : positive) :
  (r, c) ≠ (r', c') → create_cell sh r c !! (r', c') = sh !! (r', c').
Proof.
  intros Hne. unfold create_cell. destruct (sh !! (r, c)); [done|].
  by rewrite lookup_insert_ne.
Qed.

Lemma bind_value_create_cell (sh : sheet) (r c : positive) (v : string) :
  bind_value (create_cell sh r c) r c v = bind_value sh r c v.
Proof.
  unfold bind_value, create_cell, get_cell.
  destruct (sh !! (r, c)) eqn:Hcell; [by rewrite Hcell|].
  by rewrite insert_insert_eq, lookup_insert_eq.
Qed.

Lemma set_value_accepted (sh : sheet) (r c : positive) (s v : string) :
  check_string s = Some v → set_value sh r c s = Wrote (bind_value sh r c v).
Proof. intros H. unfold set_value. by rewrite H, bind_value_create_cell. Qed.

Lemma set_value_refused (sh : sheet) (r c : positive) (s : string) :
  check_string s = None →
  set_value sh r c s = Refused (create_cell sh r c) (Str.take 32767 s).
Proof. intros H. unfold set_value. by rewrite H. Qed.

Section fill_rows.
Context (desc_col : positive) (desc2_col : option positive).
Implicit Types (sh : sheet) (r c row_idx : positive) (lines values : list string).

Lemma fill_rows_cons_accepted t v lines row_idx sh :
  check_string t = Some v →
  fill_rows desc_col desc2_col (t :: lines) row_idx sh =
  fill_rows desc_col desc2_col lines (Pos.succ row_idx)
    (let sh1 := set_wrap (bind_value sh row_idx desc_col v) row_idx desc_col in
     match desc2_col with
     | Some c2 => bind_value sh1 row_idx c2 ""
     | None => sh1
     end).
Proof.
  intros Ht. cbn [fill_rows]. rewrite (set_value_accepted _ _ _ _ _ Ht).
  cbn [and_then]. cbv zeta. destruct desc2_col as [c2|]; [|done].
  by rewrite (set_value_accepted _ _ _ _ _ check_string_empty).
Qed.

Lemma fill_rows_cons_refused t lines row_idx sh :
  check_string t = None →
  fill_rows desc_col desc2_col (t :: lines) row_idx sh
  = Refused (create_cell sh row_idx desc_col) (Str.take 32767 t).
Proof. intros Ht. cbn [fill_rows]. by rewrite (set_value_refused _ _ _ _ Ht). Qed.

(** When every line is accepted the loop writes them all. *)
Lemma fill_rows_accepted lines values row_idx sh :
  Forall2 (λ line v, check_string line = Some v) lines values →
  fill_rows desc_col desc2_col lines row_idx sh
  = Wrote (write_rows desc_col desc2_col values row_idx sh).
Proof.
  intros H. revert row_idx sh.
  induction H as [|t v lines values Ht _ IH]; intros row_idx sh; [done|].
  by rewrite (fill_rows_cons_accepted _ _ _ _ _ Ht), IH.
Qed.

(** The loop ends without an exception only when every line is accepted. *)
Lemma fill_rows_wrote lines row_idx sh wb :
  fill_rows desc_col desc2_col lines row_idx sh = Wrote wb →
  ∃ values, Forall2 (λ line v, check_string line = Some v) lines values
            ∧ wb = write_rows desc_col desc2_col values row_idx sh.
Proof.
  revert row_idx sh. induction lines as [|t lines IH]; intros row_idx sh H.
  - injection H as <-. exists []. by split; [constructor|].
  - destruct (check_string t) as [v|] eqn:Ht.
    + rewrite (fill_rows_cons_accepted _ _ _ _ _ Ht) in H.
      destruct (IH _ _ H) as (values & Hall & ->).
      exists (v :: values). by split; [constructor|].
    + by rewrite (fill_rows_cons_refused _ _ _ _ Ht) in H.
Qed.

(** Whether the loop ends or stops, the rows above it are left alone. *)
Lemma fill_rows_sheet_row_before lines row_idx sh r c :
  (r < row_idx)%positive →
  sheet_of (fill_rows desc_col desc2_col lines row_idx sh) !! (r, c) = sh !! (r, c).
Proof.
  revert row_idx sh.
  induction lines as [|t lines IH]; intros row_idx sh Hr; [done|].
  assert (∀ c', (row_idx, c') ≠ (r, c)) as Hne by (intros c' [=]; lia).
  destruct (check_string t) as [v|] eqn:Ht.
  - rewrite (fill_rows_cons_accepted _ _ _ _ _ Ht), IH by lia. cbv zeta.
    destruct desc2_col as [c2|]; by skip_writes.
  - rewrite (fill_rows_cons_refused _ _ _ _ Ht). simpl.
    by apply lookup_create_cell_ne.
Qed.

(** An accepted first line is in its cell when the handler ends, whatever
    becomes of the lines after it. *)
Lemma fill_rows_first_row t v lines row_idx sh :
  check_string t = Some v → desc2_col ≠ Some desc_col →
  get_cell (sheet_of (fill_rows desc_col desc2_col (t :: lines) row_idx sh))
    row_idx desc_col = Cell (VStr v) true.
Proof.
  intros Ht Hcol. rewrite (fill_rows_cons_accepted _ _ _ _ _ Ht).
  erewrite get_cell_lookup; [|apply fill_rows_sheet_row_before; lia]. cbv zeta.
  destruct desc2_col as [c2|].
  - erewrite get_cell_lookup; [|apply lookup_bind_value_ne; congruence].
    by rewrite get_cell_set_wrap, get_cell_bind_value.
  - by rewrite get_cell_set_wrap, get_cell_bind_value.
Qed.

End fill_rows.

(** The handler, once the Description column is found. *)
Lemma fill_template_found (template : sheet) (edited_data : list string) (c : positive) :
  col_indices template !! VStr "Description" = Some c →
  fill_template template edited_data =
    match fill_rows c (col_indices template !! VStr "Description 2") edited_data 2 template with
    | Wrote wb =>
        FillReport wb (Some ("updated_template.xlsx", wb))
          [UiSuccess "✅ Data filled successfully!";
           UiDownload "📥 Download Updated Excel" wb "updated_template.xlsx"]
    | Refused wb value =>
        FillReport wb None [UiException (IllegalCharacterError value)]
    end.
Proof. intros H. unfold fill_template. by rewrite H. Qed.

(** The handler when every line is accepted. *)
Lemma fill_template_accepted (template : sheet) (edited_data values : list string)
    (c : positive) :
  col_indices template !! VStr "Description" = Some c →
  Forall2 (λ line v, check_string line = Some v) edited_data values →
  saved (fill_template template edited_data)
  = Some ("updated_template.xlsx",
          write_rows c (col_indices template !! VStr "Description 2") values 2 template).
Proof.
  intros Hc Hall. by rewrite (fill_template_found _ _ _ Hc), (fill_rows_accepted _ _ _ _ _ _ Hall).
Qed.

(** What a saved workbook tells: the column was found and every line was
    accepted. *)
Lemma fill_template_saved (template wb : sheet) (edited_data : list string) (path : string) :
  saved (fill_template template edited_data) = Some (path, wb) →
  ∃ c values,
    col_indices template !! VStr "Description" = Some c
    ∧ Forall2 (λ line v, check_string line = Some v) edited_data values
    ∧ wb = write_rows c (col_indices template !! VStr "Description 2") values 2 template.
Proof.
  intros Hs.
  destruct (col_indices template !! VStr "Description") as [c|] eqn:Hc.
  2: { unfold fill_template in Hs. by rewrite Hc in Hs. }
  rewrite (fill_template_found _ _ _ Hc) in Hs.
  destruct (fill_rows c _ edited_data 2 template) as [wb'|wb' value] eqn:Hrows; [|done].
  injection Hs as _ <-. destruct (fill_rows_wrote _ _ _ _ _ _ Hrows) as (values & Hall & ->).
  eauto.
Qed.

Lemma columns_of_length (n : positive) (k : nat) :
  length (columns n) = k → columns n = Pos.of_nat <$> seq 1 k.
Proof. unfold columns. rewrite length_fmap, length_seq. by intros ->. Qed.

(** ** Claims on the template filler *)

(** C1: for a template whose first row reads ["ID", "Description",
    "Description 2"] and the edited lines ["Row A", "Row B"], the handler saves
    a workbook in which the Description cells of rows 2 and 3 hold "Row A" and
    "Row B" and the Description 2 cells of rows 2 and 3 hold the empty string:
    one line per row, from row 2 on. *)
Theorem C1_fill_three_headers (template : sheet) :
  headers template = [VStr "ID"; VStr "Description"; VStr "Description 2"] →
  ∃ wb, saved (fill_template template ["Row A"; "Row B"])
          = Some ("updated_template.xlsx", wb)
    ∧ header wb 2 = VStr "Description" ∧ header wb 3 = VStr "Description 2"
    ∧ value (get_cell wb 2 2) = VStr "Row A"
    ∧ value (get_cell wb 3 2) = VStr "Row B"
    ∧ value (get_cell wb 2 3) = VStr ""
    ∧ value (get_cell wb 3 3) = VStr "".
Proof.
  intros Hh.
  assert (columns (max_column template) = [1; 2; 3]%positive) as Hcols.
  { apply (columns_of_length _ 3). unfold headers in Hh.
    by rewrite <- (length_fmap (header template)), Hh. }
  unfold headers in Hh. rewrite Hcols in Hh. injection Hh as H1 H2 H3.
  assert (col_indices template !! VStr "Description" = Some 2%positive) as Hd.
  { unfold col_indices. rewrite Hcols. simpl. rewrite H1, H2, H3.
    by rewrite lookup_insert_ne, lookup_insert_eq. }
  assert (col_indices template !! VStr "Description 2" = Some 3%positive) as Hd2.
  { unfold col_indices. rewrite Hcols. simpl. rewrite H1, H2, H3.
    by rewrite lookup_insert_eq. }
  assert (Forall2 (λ line v, check_string line = Some v)
            ["Row A"; "Row B"] ["Row A"; "Row B"]) as Hall
    by (repeat constructor).
  rewrite (fill_template_accepted _ _ _ _ Hd Hall), Hd2.
  eexists. split; [reflexivity|].
  set (wb := write_rows 2 (Some 3%positive) ["Row A"; "Row B"] 2 template).
  assert (∀ c, get_cell wb 1 c = get_cell template 1 c) as Hrow1.
  { intros c. apply get_cell_lookup, write_rows_row_before. lia. }
  unfold header. rewrite !Hrow1. fold (header template 2) (header template 3).
  repeat split; [done | done | ..].
  - exact (f_equal value
      (write_rows_description 2 (Some 3%positive) ["Row A"; "Row B"] 2 template 0 "Row A"
         ltac:(congruence) eq_refl)).
  - exact (f_equal value
      (write_rows_description 2 (Some 3%positive) ["Row A"; "Row B"] 2 template 1 "Row B"
         ltac:(congruence) eq_refl)).
  - exact (f_equal value
      (write_rows_description2 2 (Some 3%positive) ["Row A"; "Row B"] 2 template 0 3
         eq_refl ltac:(lia) ltac:(simpl; lia))).
  - exact (f_equal value
      (write_rows_description2 2 (Some 3%positive) ["Row A"; "Row B"] 2 template 1 3
         eq_refl ltac:(lia) ltac:(simpl; lia))).
Qed.

Lemma C1_fill_three_headers_witness :
  headers template3 = [VStr "ID"; VStr "Description"; VStr "Description 2"]
  ∧ ∃ wb, saved (fill_template template3 ["Row A"; "Row B"])
            = Some ("updated_template.xlsx", wb)
    ∧ header wb 2 = VStr "Description" ∧ header wb 3 = VStr "Description 2"
    ∧ value (get_cell wb 2 2) = VStr "Row A"
    ∧ value (get_cell wb 3 2) = VStr "Row B"
    ∧ value (get_cell wb 2 3) = VStr ""
    ∧ value (get_cell wb 3 3) = VStr "".
Proof.
  split; [vm_compute; reflexivity|].
  apply (C1_fill_three_headers template3). vm_compute. reflexivity.
Defined.

(** C2: when no header of the template is literally "Description", the
    handler reports that the Description column was not found (the spec's
    TemplateError), writes no cell (the workbook in memory is the template)
    and saves no file, whatever the edited lines. *)
Theorem C2_description_missing (template : sheet) (edited_data : list string) :
  VStr "Description" ∉ headers template →
  fill_template template edited_data
  = FillReport template None
      [UiError "⚠️ 'Description' column not found in Excel template."].
Proof.
  intros Hno. unfold fill_template.
  destruct (col_indices template !! VStr "Description") as [c|] eqn:Hc; [|done].
  by apply col_indices_header in Hc.
Qed.

Lemma C2_description_missing_witness :
  (VStr "Description" ∉ headers template_no_description)
  ∧ (fill_template template_no_description ["Row A"; "Row B"]
     = FillReport template_no_description None
         [UiError "⚠️ 'Description' column not found in Excel template."]).
Proof.
  assert (VStr "Description" ∉ headers template_no_description) as Hno.
  { apply (bool_decide_unpack _). vm_compute. exact I. }
  split; [exact Hno|].
  apply (C2_description_missing template_no_description). exact Hno.
Defined.

(** C8: in the saved workbook, the Description 2 cell of every filled row
    (rows 2 to 1 + number of lines), when the template has that column, holds
    the empty string; every cell outside the Description and Description 2
    columns, and every cell of a row that is not filled (row 1 and the rows
    past the last line), is the template's. *)
Theorem C8_fill_frame (template wb : sheet) (edited_data : list string) (path : string) :
  saved (fill_template template edited_data) = Some (path, wb) →
  ∃ desc_col,
    col_indices template !! VStr "Description" = Some desc_col
    ∧ (∀ c2 i, col_indices template !! VStr "Description 2" = Some c2 →
               i < length edited_data →
               value (get_cell wb (Pos.of_nat (2 + i)) c2) = VStr "")
    ∧ (∀ r c, c ≠ desc_col →
              Some c ≠ col_indices template !! VStr "Description 2" →
              wb !! (r, c) = template !! (r, c))
    ∧ (∀ r c, Pos.to_nat r < 2 ∨ 2 + length edited_data ≤ Pos.to_nat r →
              wb !! (r, c) = template !! (r, c)).
Proof.
  intros Hs.
  destruct (fill_template_saved _ _ _ _ Hs) as (desc_col & values & Hd & Hall & ->).
  pose proof (Forall2_length _ _ _ Hall) as Hlen.
  exists desc_col. split; [done|]. split; [|split].
  - intros c2 i Hc2 Hi.
    pose proof (description_columns_differ _ _ _ Hd Hc2) as Hne.
    change (2 + i) with (Pos.to_nat 2 + i).
    rewrite (write_rows_description2 _ _ _ _ _ _ c2 Hc2 Hne); [done | lia].
  - intros r c Hc Hc2. by apply write_rows_other_column.
  - intros r c [Hr|Hr].
    + apply write_rows_row_before. lia.
    + apply write_rows_row_after. simpl. lia.
Qed.

Lemma C8_fill_frame_witness :
  ∃ wb, saved (fill_template template3 ["Row A"; "Row B"]) = Some ("updated_template.xlsx", wb)
    ∧ value (get_cell wb 3 3) = VStr ""
    ∧ wb !! (3, 1)%positive = template3 !! (3, 1)%positive
    ∧ wb !! (4, 2)%positive = template3 !! (4, 2)%positive.
Proof.
  eexists. split; [vm_compute; reflexivity|].
  destruct (C8_fill_frame template3 _ ["Row A"; "Row B"] "updated_template.xlsx" eq_refl)
    as (c & Hc & H2 & Hcol & Hrow).
  assert (c = 2%positive) as -> by (vm_compute in Hc; congruence).
  split; [|split].
  - apply (H2 3%positive 1); [vm_compute; reflexivity | simpl; lia].
  - apply Hcol; [lia | vm_compute; congruence].
  - apply Hrow. right. simpl. lia.
Defined.

Lemma fill_template_workbook (template : sheet) (edited_data : list string) (c : positive) :
  col_indices template !! VStr "Description" = Some c →
  workbook (fill_template template edited_data)
  = sheet_of (fill_rows c (col_indices template !! VStr "Description 2") edited_data 2 template).
Proof.
  intros Hc. rewrite (fill_template_found _ _ _ Hc).
  by destruct (fill_rows c _ edited_data 2 template).
Qed.

(** C10 (as amended): splitting the edited text at newlines always gives a
    first line.  Whenever the template has a Description column and the
    workbook library accepts that first line, the handler writes row 2: its
    Description cell holds the first line as checked (cut to 32767
    characters), wrapped, whatever becomes of the later lines.  When the text
    area was cleared, the only line is the empty string, which is accepted:
    row 2's Description cell holds the empty string and the workbook is
    saved. *)
Theorem C10_fill_writes_row_2 (template : sheet) (edited_text : string) (desc_col : positive) :
  col_indices template !! VStr "Description" = Some desc_col →
  ∃ first rest,
    Str.split Str.nl edited_text = first :: rest
    ∧ (∀ v, check_string first = Some v →
         get_cell (workbook (fill_template template (Str.split Str.nl edited_text)))
           2 desc_col = Cell (VStr v) true)
    ∧ (edited_text = "" →
       first = "" ∧ rest = []
       ∧ ∃ wb, saved (fill_template template (Str.split Str.nl edited_text))
               = Some ("updated_template.xlsx", wb)
           ∧ get_cell wb 2 desc_col = Cell (VStr "") true).
Proof.
  intros Hd.
  assert (∃ first rest, Str.split Str.nl edited_text = first :: rest) as (first & rest & Hsplit).
  { destruct edited_text as [|a s]; simpl; [eauto|].
    case_decide; [eauto|]. destruct (Str.split Str.nl s); eauto. }
  assert (col_indices template !! VStr "Description 2" ≠ Some desc_col) as Hcol.
  { intros Hc2. by apply (description_columns_differ _ _ _ Hd Hc2). }
  exists first, rest. split; [done|]. split.
  - intros v Hv. rewrite (fill_template_workbook _ _ _ Hd), Hsplit.
    by apply fill_rows_first_row.
  - intros ->. simpl in Hsplit. injection Hsplit as <- <-.
    split; [done|]. split; [done|].
    assert (Forall2 (λ line v, check_string line = Some v) [""] [""]) as Hall
      by (repeat constructor).
    eexists. split; [exact (fill_template_accepted _ _ _ _ Hd Hall)|].
    by apply (write_rows_description desc_col _ [""] 2 template 0 "").
Qed.

Lemma C10_fill_writes_row_2_witness :
  col_indices template3 !! VStr "Description" = Some 2%positive
  ∧ get_cell (workbook (fill_template template3 (Str.split Str.nl two_lines))) 2 2
    = Cell (VStr "Item A") true.
Proof.
  assert (col_indices template3 !! VStr "Description" = Some 2%positive) as Hd
    by (vm_compute; reflexivity).
  split; [exact Hd|].
  destruct (C10_fill_writes_row_2 template3 two_lines 2 Hd)
    as (first & rest & Hsplit & Hrow & _).
  assert (first = "Item A") as -> by (vm_compute in Hsplit; congruence).
  apply Hrow. reflexivity.
Defined.

(** C10 as stated fails: a first line with a control character (here a
    vertical tab) is refused by the workbook library, and row 2 is not
    written, although the template has a Description column. *)
Lemma C10_counterexample :
  ¬ (∀ (template : sheet) (edited_text : string) (desc_col : positive),
       col_indices template !! VStr "Description" = Some desc_col →
       ∃ first rest,
         Str.split Str.nl edited_text = first :: rest
         ∧ get_cell (workbook (fill_template template (Str.split Str.nl edited_text)))
             2 desc_col = Cell (VStr first) true).
Proof.
  intros H.
  destruct (H template3 (String "011" "") 2%positive ltac:(vm_compute; reflexivity))
    as (first & rest & Hsplit & Hcell).
  vm_compute in Hsplit. injection Hsplit as <- <-.
  vm_compute in Hcell. discriminate.
Qed.

(** ** Python [str] facts *)

Lemma split_nonempty (c : ascii) (s : string) : Str.split c s ≠ [].
Proof.
  destruct s as [|a s]; simpl; [done|].
  case_decide; [done|]. by destruct (Str.split c s).
Qed.

Lemma split_app_sep (c : ascii) (s1 s2 : string) :
  Str.split c (s1 +:+ String c s2) = Str.split c s1 ++ Str.split c s2.
Proof.
  induction s1 as [|a s1 IH]; simpl.
  - by rewrite decide_True.
  - case_decide; [by rewrite IH|].
    rewrite IH. pose proof (split_nonempty c s1).
    by destruct (Str.split c s1).
Qed.

Lemma split_no_sep (c : ascii) (s : string) :
  Str.contains (String c "") s = false → Str.split c s = [s].
Proof.
  induction s as [|a s IH]; simpl; [done|].
  intros [H1 H2]%orb_false_elim.
  destruct (decide (c = a)) as [->|Hne]; [by destruct s|].
  rewrite decide_False by done. by rewrite IH.
Qed.

(** Joining with newlines and splitting again gives the lines of the blocks. *)
Lemma split_join_newline (b : string) (blocks : list string) :
  Str.split Str.nl (Str.join Str.newline (b :: blocks))
  = concat (Str.split Str.nl <$> (b :: blocks)).
Proof.
  revert b. induction blocks as [|b' blocks IH]; intros b.
  - simpl. by rewrite app_nil_r.
  - change (Str.join Str.newline (b :: b' :: blocks))
      with (b +:+ String Str.nl (Str.join Str.newline (b' :: blocks))).
    rewrite split_app_sep, IH. reflexivity.
Qed.

Lemma concat_split_no_newline (blocks : list string) :
  (∀ b, b ∈ blocks → Str.contains Str.newline b = false) →
  concat (Str.split Str.nl <$> blocks) = blocks.
Proof.
  induction blocks as [|b blocks IH]; intros Hno; [done|].
  simpl. rewrite split_no_sep by (apply Hno, list_elem_of_here).
  simpl. f_equal. apply IH. intros b' Hb'. by apply Hno, list_elem_of_further.
Qed.

(** ** Claims on the review store and the pipeline *)

(** C3 (as amended): for every non-empty ExtractionResult, the EditedLines
    stored when the user edits nothing are the lines of its blocks, in
    order: each block split at newlines, one after the other.  They are
    exactly the N blocks when no block contains a newline. *)
Theorem C3_unedited_lines (w : widgets) (ss : session_state) (blocks : list string) :
  extracted_data ss = Some (Some blocks) →
  blocks ≠ [] →
  (∀ t, text_area w t = t) →
  edited_data (review w ss).1 = Some (concat (Str.split Str.nl <$> blocks))
  ∧ ((∀ b, b ∈ blocks → Str.contains Str.newline b = false) →
     edited_data (review w ss).1 = Some blocks).
Proof.
  intros Hdata Hne Hid.
  assert (edited_data (review w ss).1 = Some (concat (Str.split Str.nl <$> blocks))) as H.
  { unfold review. rewrite Hdata. destruct blocks as [|b blocks]; [done|].
    rewrite Hid, split_join_newline.
    destruct (excel_template w); [destruct (fill_clicked w)|]; reflexivity. }
  split; [done|]. intros Hno. by rewrite H, concat_split_no_newline.
Qed.

Lemma C3_unedited_lines_witness :
  edited_data (review (upload_only doc_a)
                 (Session (Some (Some [two_lines; "Item C"])) (Some "a.pdf") None)).1
  = Some ["Item A"; "Item B"; "Item C"].
Proof.
  apply (C3_unedited_lines (upload_only doc_a)
           (Session (Some (Some [two_lines; "Item C"])) (Some "a.pdf") None)
           [two_lines; "Item C"]); [reflexivity | discriminate | reflexivity].
Defined.

(** C3 as stated fails: a block of two lines is one block (N = 1) and gives
    two EditedLines. *)
Lemma C3_counterexample :
  ¬ (∀ (w : widgets) (ss : session_state) (blocks : list string),
       extracted_data ss = Some (Some blocks) → blocks ≠ [] →
       (∀ t, text_area w t = t) →
       edited_data (review w ss).1 = Some blocks).
Proof.
  intros H.
  specialize (H (upload_only doc_a)
                (Session (Some (Some [two_lines])) (Some "a.pdf") None)
                [two_lines] eq_refl ltac:(discriminate) (λ _, eq_refl)).
  vm_compute in H. discriminate.
Qed.

(** C6: an uploaded file whose extension is neither "pdf" nor "docx" gives the
    empty text, and [process_document] returns [None] without sending
    anything to the model: the log of prompts is unchanged. *)
Theorem C6_unsupported_extension (remote : llm) (file : upload) (log : list string) :
  file_extension file ≠ "pdf" → file_extension file ≠ "docx" →
  document_text file = ""
  ∧ process_document remote file log = (Ok None, log).
Proof.
  intros Hpdf Hdocx.
  assert (document_text file = "") as Htext.
  { unfold document_text. by rewrite !decide_False. }
  split; [done|]. unfold process_document. by rewrite Htext.
Qed.

Lemma C6_unsupported_extension_witness :
  file_extension doc_txt = "txt"
  ∧ document_text doc_txt = ""
  ∧ process_document remote_ok doc_txt [] = (Ok None, []).
Proof.
  split; [reflexivity|].
  apply (C6_unsupported_extension remote_ok doc_txt []); vm_compute; discriminate.
Defined.

(** ** The chunk loop *)

Lemma extract_chunks_cons (remote : llm) (chunk : string) (rest acc log : list string) :
  extract_chunks remote (chunk :: rest) acc log =
  match remote log (prompt chunk) with
  | inl content =>
      extract_chunks remote rest (acc ++ [Str.strip content]) (log ++ [prompt chunk])
  | inr e => (Raise (LlmError e), log ++ [prompt chunk])
  end.
Proof.
  simpl. unfold mbind, M_bind, invoke.
  by destruct (remote log (prompt chunk)).
Qed.

(** The loop stops at the first failing call: the prompts of the chunks up
    to the failing one were sent, none after it. *)
Lemma extract_chunks_failure (remote : llm) (chunks acc log : list string)
    (i : nat) (e : llm_error) :
  first_failure remote log chunks i e →
  extract_chunks remote chunks acc log
  = (Raise (LlmError e), log ++ (prompt <$> take (S i) chunks)).
Proof.
  revert acc log i.
  induction chunks as [|chunk rest IH]; intros acc log i Hf; [done|].
  rewrite extract_chunks_cons. destruct i as [|j]; simpl in Hf.
  - rewrite Hf. reflexivity.
  - destruct Hf as [[content Hc] Hf]. rewrite Hc.
    rewrite (IH _ _ _ Hf). f_equal.
    change (take (S (S j)) (chunk :: rest)) with (chunk :: take (S j) rest).
    rewrite fmap_cons. by rewrite <- app_assoc.
Qed.

(** Without a failure the loop returns one block per chunk, in order. *)
Lemma extract_chunks_success (remote : llm) (chunks acc log : list string)
    (data : list string) (log' : list string) :
  extract_chunks remote chunks acc log = (Ok data, log') →
  ∃ blocks, data = acc ++ blocks ∧ length blocks = length chunks
            ∧ log' = log ++ (prompt <$> chunks).
Proof.
  revert acc log.
  induction chunks as [|chunk rest IH]; intros acc log H.
  - simpl in H. unfold mret, M_ret in H. injection H as <- <-.
    exists []. simpl. by rewrite !app_nil_r.
  - rewrite extract_chunks_cons in H.
    destruct (remote log (prompt chunk)) as [content|e]; [|done].
    destruct (IH _ _ H) as (blocks & -> & Hlen & ->).
    exists (Str.strip content :: blocks).
    rewrite fmap_cons, <- !app_assoc. simpl. by rewrite Hlen.
Qed.

(** C7 (as amended): when the call for chunk [i] is the first to fail,
    [process_document] ends with the remote service's error as it was raised
    (it carries no chunk index), having sent the prompts of chunks 0 to [i]
    and none of the later ones; no block is returned, so no chunk is skipped
    silently. *)
Theorem C7_failure_aborts (remote : llm) (file : upload) (log : list string)
    (i : nat) (e : llm_error) :
  document_text file ≠ "" →
  first_failure remote log (Splitter.split_text 5000 0 (document_text file)) i e →
  process_document remote file log
  = (Raise (LlmError e),
     log ++ (prompt <$> take (S i) (Splitter.split_text 5000 0 (document_text file)))).
Proof.
  intros Htext Hf. unfold process_document.
  destruct (document_text file) as [|a t] eqn:Ht; [done|].
  change (Str.is_empty (String a t)) with false. cbv iota.
  unfold mbind, M_bind. by rewrite (extract_chunks_failure _ _ [] _ _ _ Hf).
Qed.

Lemma C7_failure_aborts_witness :
  document_text doc_a ≠ ""
  ∧ first_failure remote_down [] (Splitter.split_text 5000 0 (document_text doc_a)) 0
      RateLimitError
  ∧ process_document remote_down doc_a []
    = (Raise (LlmError RateLimitError), [prompt "Pump, 3 kW"]).
Proof.
  assert (Splitter.split_text 5000 0 (document_text doc_a) = ["Pump, 3 kW"]) as Hc
    by (vm_compute; reflexivity).
  assert (document_text doc_a ≠ "") as Ht by (vm_compute; discriminate).
  assert (first_failure remote_down []
            (Splitter.split_text 5000 0 (document_text doc_a)) 0 RateLimitError) as Hf
    by (rewrite Hc; reflexivity).
  split; [exact Ht|]. split; [exact Hf|].
  rewrite (C7_failure_aborts remote_down doc_a [] 0 RateLimitError Ht Hf).
  by rewrite Hc.
Defined.

(** C7 as stated fails: the exception that reaches the caller does not
    identify the failing chunk.  The same exception is raised when the
    first call fails and when the second call fails, so no reading of the
    exception gives the index. *)
Lemma C7_counterexample :
  ¬ (∃ index_of : exn → nat,
       ∀ (remote : llm) (chunks log : list string) (i : nat) (e : llm_error),
         first_failure remote log chunks i e →
         ∃ x, raised (extract_chunks remote chunks [] log) = Some x ∧ index_of x = i).
Proof.
  intros [index_of H].
  destruct (H remote_down ["alpha"; "beta"] [] 0 RateLimitError eq_refl)
    as (x0 & Hx0 & Hi0).
  destruct (H remote_second_fails ["alpha"; "beta"] [] 1 RateLimitError
              (conj (ex_intro _ two_lines eq_refl) eq_refl))
    as (x1 & Hx1 & Hi1).
  vm_compute in Hx0, Hx1. congruence.
Qed.

(** ** The review store across runs *)

Lemma review_keeps_extraction (w : widgets) (ss : session_state) :
  extracted_data (review w ss).1 = extracted_data ss
  ∧ file_name (review w ss).1 = file_name ss.
Proof.
  unfold review.
  destruct (extracted_data ss) as [[[|b bs]|]|] eqn:Hd; try done;
    destruct (excel_template w); try destruct (fill_clicked w); by rewrite ?Hd.
Qed.

Lemma review_edited (w : widgets) (ss : session_state) (b : string) (bs : list string) :
  extracted_data ss = Some (Some (b :: bs)) →
  edited_data (review w ss).1
  = Some (Str.split Str.nl (text_area w (Str.join Str.newline (b :: bs)))).
Proof.
  intros Hd. unfold review. rewrite Hd.
  destruct (excel_template w); try destruct (fill_clicked w); reflexivity.
Qed.

Lemma review_no_data (w : widgets) (ss : session_state) :
  extracted_data ss = Some None → review w ss = (ss, None).
Proof. intros Hd. unfold review. by rewrite Hd. Qed.

(** A run that extracts: the key is absent, or the stored name differs. *)
Lemma run_extracts (remote : llm) (w : widgets) (file : upload)
    (ss : session_state) (log : list string) :
  uploaded_file w = Some file →
  extracted_data ss = None
  ∨ (∃ stored, file_name ss = Some stored ∧ stored ≠ name file) →
  run remote w (ss, log) =
  match process_document remote file log with
  | (Ok data, log') =>
      ((review w (Session (Some data) (Some (name file)) (edited_data ss))).1, log')
  | (Raise _, log') => (ss, log')
  end.
Proof.
  intros Hup Hcase. unfold run, script, store_extraction. simpl. rewrite Hup.
  assert (∀ m : M session_state,
    (m = (data ← process_document remote file;
          mret (Session (Some data) (Some (name file)) (edited_data ss)))) →
    (let (r, log') := (ss0 ← m; mret (review w ss0)) log in
     match r with
     | Ok (ss0, _) => (ss0, log')
     | Raise _ => (ss, log')
     end) =
    match process_document remote file log with
    | (Ok data, log') =>
        ((review w (Session (Some data) (Some (name file)) (edited_data ss))).1, log')
    | (Raise _, log') => (ss, log')
    end) as Hgen.
  { intros m ->. unfold mbind, M_bind, mret, M_ret.
    destruct (process_document remote file log) as [[data|e] log']; [|done].
    by destruct (review _ _). }
  destruct Hcase as [Hnone|(stored & Hstored & Hne)].
  - rewrite Hnone. by apply Hgen.
  - rewrite Hstored. destruct (extracted_data ss); [|by apply Hgen].
    rewrite decide_True by done. by apply Hgen.
Qed.

(** A run with the stored name: nothing is extracted, nothing is sent. *)
Lemma run_same_name (remote : llm) (w : widgets) (file : upload)
    (ss : session_state) (log : list string) :
  uploaded_file w = Some file →
  is_Some (extracted_data ss) →
  file_name ss = Some (name file) →
  run remote w (ss, log) = ((review w ss).1, log).
Proof.
  intros Hup [d Hd] Hname. unfold run, script, store_extraction. simpl.
  rewrite Hup, Hd, Hname. rewrite decide_False by (intros H; by apply H).
  unfold mbind, M_bind, mret, M_ret. by destruct (review w ss).
Qed.

Lemma run_no_upload (remote : llm) (w : widgets) (ss : session_state) (log : list string) :
  uploaded_file w = None →
  run remote w (ss, log) = ((review w ss).1, log).
Proof.
  intros Hup. unfold run, script, store_extraction. simpl. rewrite Hup.
  unfold mbind, M_bind, mret, M_ret. by destruct (review w ss).
Qed.

Lemma run_keys_together (remote : llm) (w : widgets) (ss : session_state)
    (log : list string) :
  keys_together ss → keys_together (run remote w (ss, log)).1.
Proof.
  intros Hinv. unfold keys_together in *.
  destruct (review_keeps_extraction w ss) as [Hk1 Hk2].
  destruct (uploaded_file w) as [file|] eqn:Hup.
  2: { rewrite run_no_upload by done. simpl. by rewrite Hk1, Hk2. }
  destruct (extracted_data ss) as [d|] eqn:Hd.
  - destruct (file_name ss) as [stored|] eqn:Hn.
    2: { destruct Hinv as [_ Hinv]. by specialize (Hinv eq_refl). }
    destruct (decide (stored = name file)) as [->|Hne].
    + rewrite (run_same_name _ _ file) by (by rewrite ?Hd, ?Hn).
      simpl. rewrite Hk1, Hk2, ?Hd, ?Hn. split; discriminate.
    + rewrite (run_extracts _ _ file) by (rewrite ?Hd, ?Hn; eauto).
      destruct (process_document remote file log) as [[data|e] log']; simpl.
      * destruct (review_keeps_extraction w
                    (Session (Some data) (Some (name file)) (edited_data ss))) as [-> ->].
        simpl. split; discriminate.
      * rewrite ?Hd, ?Hn. split; discriminate.
  - rewrite (run_extracts _ _ file) by (rewrite ?Hd; eauto).
    destruct (process_document remote file log) as [[data|e] log']; simpl.
    + destruct (review_keeps_extraction w
                  (Session (Some data) (Some (name file)) (edited_data ss))) as [-> ->].
      simpl. split; discriminate.
    + by rewrite ?Hd.
Qed.

Lemma session_after_snoc (remote : llm) (ws : list widgets) (w : widgets) :
  session_after remote (ws ++ [w]) = run remote w (session_after remote ws).
Proof. unfold session_after. by rewrite foldl_app. Qed.

Lemma session_keys_together (remote : llm) (ws : list widgets) :
  keys_together (session_after remote ws).1.
Proof.
  induction ws as [|w ws IH] using rev_ind; [done|].
  rewrite session_after_snoc.
  destruct (session_after remote ws) as [ss log]. by apply run_keys_together.
Qed.

(** C9 (as amended): after any sequence of runs, uploading a document whose
    name differs from the stored file name re-runs extraction on the new
    document; when extraction returns, its result replaces the stored
    ExtractionResult, the new name is stored, and, when the result is not
    empty, the EditedLines become the lines of the review text of the new
    result.  Uploading a document with the stored name sends nothing to the
    model and keeps the stored ExtractionResult. *)
Theorem C9_upload_new_name (remote : llm) (ws : list widgets) (w : widgets)
    (file : upload) :
  uploaded_file w = Some file →
  let st := session_after remote ws in
  let st' := run remote w st in
  (file_name st.1 ≠ Some (name file) →
   ∀ data log', process_document remote file st.2 = (Ok data, log') →
     st'.2 = log'
     ∧ extracted_data st'.1 = Some data
     ∧ file_name st'.1 = Some (name file)
     ∧ (∀ b bs, data = Some (b :: bs) →
          edited_data st'.1
          = Some (Str.split Str.nl (text_area w (Str.join Str.newline (b :: bs))))))
  ∧ (file_name st.1 = Some (name file) →
     st'.2 = st.2
     ∧ extracted_data st'.1 = extracted_data st.1
     ∧ file_name st'.1 = file_name st.1).
Proof.
  intros Hup st st'. subst st'.
  pose proof (session_keys_together remote ws) as Hinv. fold st in Hinv.
  destruct st as [ss log]. simpl in *. unfold keys_together in Hinv. split.
  - intros Hname data log' Hrun.
    rewrite (run_extracts _ _ file), Hrun; [|done|].
    + cbn [fst snd].
      set (ss1 := Session (Some data) (Some (name file)) (edited_data ss)).
      destruct (review_keeps_extraction w ss1) as [-> ->]. simpl.
      repeat split. intros b bs ->. by apply review_edited.
    + destruct (file_name ss) as [stored|] eqn:Hn.
      * right. exists stored. split; [done|]. congruence.
      * left. by apply Hinv.
  - intros Hname.
    rewrite (run_same_name _ _ file); [|done| |done].
    + cbn [fst snd]. destruct (review_keeps_extraction w ss) as [-> ->]. done.
    + destruct (extracted_data ss) eqn:Hd; [eauto|].
      destruct Hinv as [Hinv _]. rewrite Hinv in Hname; done.
Qed.

Lemma C9_upload_new_name_witness :
  let st := session_after remote_ok [upload_only doc_a] in
  let st' := run remote_ok (upload_only doc_c) st in
  file_name st.1 = Some "a.pdf"
  ∧ extracted_data st'.1 = Some (Some [two_lines])
  ∧ file_name st'.1 = Some "c.docx"
  ∧ edited_data st'.1 = Some ["Item A"; "Item B"]
  ∧ st'.2 = st.2 ++ [prompt "Valve DN50
Flange"].
Proof.
  intros st st'.
  destruct (C9_upload_new_name remote_ok [upload_only doc_a] (upload_only doc_c) doc_c
              eq_refl) as [Hnew _].
  fold st in Hnew. fold st' in Hnew.
  assert (file_name st.1 = Some "a.pdf") as Hn by (vm_compute; reflexivity).
  destruct (Hnew ltac:(rewrite Hn; discriminate) (Some [two_lines])
              (st.2 ++ [prompt "Valve DN50
Flange"]) ltac:(vm_compute; reflexivity)) as (Hlog & Hdata & Hname & Hedit).
  split; [exact Hn|]. split; [exact Hdata|]. split; [exact Hname|].
  split; [|exact Hlog].
  rewrite (Hedit two_lines [] eq_refl). vm_compute. reflexivity.
Defined.

(** C9 as stated fails: when the new document gives no text, the EditedLines
    of the previous document stay in the store under the new file name. *)
Lemma C9_counterexample :
  ¬ (∀ (remote : llm) (ws : list widgets) (w : widgets) (file : upload),
       uploaded_file w = Some file →
       let st := session_after remote ws in
       let st' := run remote w st in
       file_name st.1 ≠ Some (name file) →
       file_name st'.1 = Some (name file) →
       edited_data st'.1 = None
       ∨ ∃ data, extracted_data st'.1 = Some (Some data)
                 ∧ edited_data st'.1
                   = Some (Str.split Str.nl (text_area w (Str.join Str.newline data)))).
Proof.
  intros H.
  specialize (H remote_ok [upload_only doc_a] (upload_only doc_scan) doc_scan eq_refl).
  cbv zeta in H.
  destruct H as [H|(data & H & _)].
  - vm_compute. discriminate.
  - vm_compute. reflexivity.
  - vm_compute in H. discriminate.
  - vm_compute in H. discriminate.
Qed.

(** ** More Python [str] facts *)

Section str_facts.
Implicit Types (s t p : string) (l : list string).

Lemma app_cons (a : ascii) s t : String a s +:+ t = String a (s +:+ t).
Proof. reflexivity. Qed.

Lemma app_empty_l s : "" +:+ s = s.
Proof. reflexivity. Qed.

Lemma app_empty_r s : s +:+ "" = s.
Proof. induction s as [|a s IH]; [done|]. by rewrite app_cons, IH. Qed.

Lemma str_app_assoc s t p : (s +:+ t) +:+ p = s +:+ (t +:+ p).
Proof. induction s as [|a s IH]; [done|]. by rewrite !app_cons, IH. Qed.

Lemma length_str_app s t : String.length (s +:+ t) = String.length s + String.length t.
Proof. induction s as [|a s IH]; [done|]. rewrite app_cons. simpl. by rewrite IH. Qed.

Lemma is_empty_true s : Str.is_empty s = true ↔ s = "".
Proof. by destruct s. Qed.

Lemma is_empty_false s : Str.is_empty s = false ↔ s ≠ "".
Proof. by destruct s. Qed.

Lemma length_pos s : s ≠ "" → 0 < String.length s.
Proof. destruct s; [done|simpl; lia]. Qed.

Lemma flat_cons s l : Str.flat (s :: l) = s +:+ Str.flat l.
Proof. reflexivity. Qed.

Lemma flat_app l1 l2 : Str.flat (l1 ++ l2) = Str.flat l1 +:+ Str.flat l2.
Proof.
  induction l1 as [|s l1 IH]; [done|].
  by rewrite <- app_comm_cons, !flat_cons, IH, str_app_assoc.
Qed.

Lemma join_empty_sep l : Str.join "" l = Str.flat l.
Proof.
  induction l as [|s [|s' l] IH]; [done| |].
  - by rewrite flat_cons, app_empty_r.
  - change (Str.join "" (s :: s' :: l)) with (s +:+ "" +:+ Str.join "" (s' :: l)).
    by rewrite IH, app_empty_l.
Qed.

Lemma flat_filter_nonempty l : Str.flat (filter (λ s, s ≠ "") l) = Str.flat l.
Proof.
  induction l as [|s l IH]; [done|].
  rewrite filter_cons. case_decide as Hs.
  - by rewrite !flat_cons, IH.
  - subst s. by rewrite flat_cons, app_empty_l.
Qed.

Lemma flat_chars s : Str.flat (Str.chars s) = s.
Proof.
  induction s as [|a s IH]; [done|].
  change (Str.flat (Str.chars (String a s)))
    with (String a "" +:+ Str.flat (Str.chars s)).
  by rewrite IH.
Qed.

Lemma length_flat_elem s l : s ∈ l → String.length s ≤ String.length (Str.flat l).
Proof.
  induction l as [|s' l IH]; intros Hin; [by apply elem_of_nil in Hin|].
  rewrite flat_cons, length_str_app.
  apply elem_of_cons in Hin as [->|Hin]; [lia|]. specialize (IH Hin). lia.
Qed.

Lemma lstrip_length s : String.length (Str.lstrip s) ≤ String.length s.
Proof. induction s as [|a s IH]; simpl; [done|]. destruct (Str.is_space a); simpl; lia. Qed.

Lemma rstrip_length s : String.length (Str.rstrip s) ≤ String.length s.
Proof.
  induction s as [|a s IH]; simpl; [done|].
  destruct (Str.is_space a && Str.is_empty (Str.rstrip s)); simpl; lia.
Qed.

Lemma strip_length s : String.length (Str.strip s) ≤ String.length s.
Proof.
  unfold Str.strip. pose proof (lstrip_length (Str.rstrip s)).
  pose proof (rstrip_length s). lia.
Qed.

Lemma startswith_drop p s :
  Str.startswith p s = true → s = p +:+ Str.drop (String.length p) s.
Proof.
  revert s. induction p as [|a p IH]; intros s H; [by destruct s|].
  destruct s as [|b s]; simpl in H; [done|].
  case_decide; [subst b|done]. simpl. rewrite app_cons. f_equal. by apply IH.
Qed.

Lemma startswith_length p s :
  Str.startswith p s = true → String.length p ≤ String.length s.
Proof.
  revert s. induction p as [|a p IH]; intros s H; simpl; [lia|].
  destruct s as [|b s]; simpl in H; [done|].
  case_decide; [|done]. specialize (IH _ H). simpl. lia.
Qed.

End str_facts.

(** ** The chunk splitter: cutting at a separator *)

Section cutting.
Import Splitter.
Implicit Types (sep text s p : string) (l ps : list string).

Lemma re_split_go_nonempty sep skip text : re_split_go sep skip text ≠ [].
Proof.
  revert skip. induction text as [|c rest IH]; intros skip; simpl; [done|].
  destruct skip as [|k]; [|apply IH].
  destruct (Str.startswith sep (String c rest)); [done|].
  by destruct (re_split_go sep 0 rest).
Qed.

Lemma join_cons sep p l :
  l ≠ [] → Str.join sep (p :: l) = p +:+ sep +:+ Str.join sep l.
Proof. by destruct l. Qed.

Lemma join_cons_char sep (c : ascii) p ps :
  Str.join sep (String c p :: ps) = String c (Str.join sep (p :: ps)).
Proof. by destruct ps. Qed.

(** Joining the pieces with the separator gives the text back. *)
Lemma join_re_split_go sep text skip :
  sep ≠ "" → skip ≤ String.length text →
  Str.join sep (re_split_go sep skip text) = Str.drop skip text.
Proof.
  intros Hsep. revert skip.
  induction text as [|c rest IH]; intros skip Hskip.
  { by destruct skip. }
  destruct skip as [|k]; simpl in Hskip.
  2: { simpl. apply IH. lia. }
  simpl re_split_go. simpl Str.drop.
  destruct (Str.startswith sep (String c rest)) eqn:Hst.
  - rewrite join_cons by apply re_split_go_nonempty.
    pose proof (startswith_length _ _ Hst) as Hlen.
    pose proof (startswith_drop _ _ Hst) as Hdrop.
    destruct sep as [|a p]; [done|]. simpl in Hlen.
    replace (String.length (String a p) - 1) with (String.length p) by (simpl; lia).
    rewrite IH by lia. rewrite app_empty_l.
    simpl in Hdrop. by rewrite <- Hdrop.
  - pose proof (re_split_go_nonempty sep 0 rest) as Hne.
    specialize (IH 0 ltac:(lia)). simpl in IH.
    destruct (re_split_go sep 0 rest) as [|p ps]; [done|].
    by rewrite join_cons_char, IH.
Qed.

Lemma flat_keep_separator sep p0 ps :
  Str.flat (p0 :: ((λ p, sep +:+ p) <$> ps)) = Str.join sep (p0 :: ps).
Proof.
  revert p0. induction ps as [|p1 ps IH]; intros p0.
  - change (p0 +:+ "" = p0). apply app_empty_r.
  - rewrite join_cons by done. rewrite <- IH.
    rewrite fmap_cons, !flat_cons. by rewrite str_app_assoc.
Qed.

(** The pieces of a cut, one after the other, are the text. *)
Lemma flat_split_text_with_regex text sep :
  Str.flat (split_text_with_regex text sep) = text.
Proof.
  unfold split_text_with_regex. rewrite flat_filter_nonempty.
  destruct (Str.is_empty sep) eqn:Hsep; [apply flat_chars|].
  apply is_empty_false in Hsep.
  pose proof (join_re_split_go sep text 0 Hsep ltac:(lia)) as Hjoin.
  unfold re_split. destruct (re_split_go sep 0 text) as [|p0 ps]; [done|].
  by rewrite flat_keep_separator.
Qed.

Lemma split_text_with_regex_nonempty text sep :
  Forall (λ s, s ≠ "") (split_text_with_regex text sep).
Proof.
  apply Forall_forall. intros s Hs. unfold split_text_with_regex in Hs.
  by apply list_elem_of_filter in Hs as [Hs _].
Qed.

Lemma chars_length text : Forall (λ s, String.length s = 1) (Str.chars text).
Proof. induction text as [|c rest IH]; simpl; by constructor. Qed.

Lemma split_chars_length text :
  Forall (λ s, String.length s = 1) (split_text_with_regex text "").
Proof.
  unfold split_text_with_regex. simpl.
  apply Forall_forall. intros s [_ Hs]%list_elem_of_filter.
  by apply (proj1 (Forall_forall _ _) (chars_length text)).
Qed.

End cutting.

(** ** The chunk splitter: merging pieces into chunks *)

Section merging.
Import Splitter.
Context (chunk_size : nat).
Implicit Types (d s text : string) (splits docs cur ranges : list string).

Lemma sep_if_0 (b : bool) : sep_if b 0 = 0.
Proof. by destruct b. Qed.

Lemma join_docs_flat cur : join_docs cur "" = chunk_of_range (Str.flat cur).
Proof.
  unfold chunk_of_range, join_docs. rewrite !join_empty_sep.
  by rewrite flat_cons, app_empty_r.
Qed.

Lemma chunk_of_range_length r c :
  chunk_of_range r = Some c → String.length c ≤ String.length r.
Proof.
  unfold chunk_of_range, join_docs. rewrite join_empty_sep, flat_cons, app_empty_r.
  destruct (Str.is_empty (Str.strip r)); [done|].
  intros [= <-]. apply strip_length.
Qed.

(** With no overlap, the whole current range is dropped after a chunk. *)
Lemma pop_docs_all len_d cur total :
  total = String.length (Str.flat cur) → Forall (λ s, s ≠ "") cur →
  pop_docs chunk_size 0 0 len_d total cur = (0, []).
Proof.
  revert total. induction cur as [|d0 rest IH]; intros total -> Hne.
  - simpl. by rewrite andb_false_r.
  - apply Forall_cons in Hne as [Hd0 Hrest].
    rewrite flat_cons, length_str_app. apply length_pos in Hd0.
    cbn -[Nat.ltb sep_if String.length].
    replace (0 <? String.length d0 + String.length (Str.flat rest)) with true
      by (symmetry; apply Nat.ltb_lt; lia).
    rewrite orb_true_l, sep_if_0. apply IH; [lia | done].
Qed.

Lemma merge_loop_emit d splits docs cur total :
  chunk_size < total + String.length d → cur ≠ [] →
  total = String.length (Str.flat cur) → Forall (λ s, s ≠ "") cur →
  merge_loop chunk_size 0 "" (d :: splits) docs cur total
  = merge_loop chunk_size 0 "" splits
      (docs ++ option_list (chunk_of_range (Str.flat cur))) [d] (String.length d).
Proof.
  intros Hbig Hcur Htotal Hne.
  cbn -[Nat.ltb sep_if String.length pop_docs]. simpl (String.length "").
  rewrite !sep_if_0, Nat.add_0_r.
  replace (chunk_size <? total + String.length d) with true
    by (symmetry; apply Nat.ltb_lt; lia).
  replace (0 <? length cur) with true
    by (symmetry; apply Nat.ltb_lt; destruct cur; [done | simpl; lia]).
  simpl andb. cbv iota.
  rewrite (pop_docs_all _ _ _ Htotal Hne). cbv iota beta zeta.
  rewrite join_docs_flat, sep_if_0, Nat.add_0_r. reflexivity.
Qed.

Lemma merge_loop_keep d splits docs cur total :
  total + String.length d ≤ chunk_size ∨ cur = [] →
  merge_loop chunk_size 0 "" (d :: splits) docs cur total
  = merge_loop chunk_size 0 "" splits docs (cur ++ [d]) (total + String.length d).
Proof.
  intros Hfit.
  cbn -[Nat.ltb sep_if String.length pop_docs]. simpl (String.length "").
  rewrite !sep_if_0, !Nat.add_0_r.
  replace ((chunk_size <? total + String.length d) && (0 <? length cur)) with false.
  - cbv iota beta zeta. by rewrite sep_if_0, Nat.add_0_r.
  - symmetry. apply andb_false_iff. destruct Hfit as [Hfit| ->].
    + left. apply Nat.ltb_ge. lia.
    + by right.
Qed.

Lemma merge_loop_nil docs cur total :
  merge_loop chunk_size 0 "" [] docs cur total
  = docs ++ option_list (chunk_of_range (Str.flat cur)).
Proof. simpl. by rewrite join_docs_flat. Qed.

End merging.

(** ** The chunk splitter: chunks within the cap, nothing lost *)

Section chunking.
Import Splitter.
Context (chunk_size : nat).
Implicit Types (d s text : string) (splits good docs cur ranges final : list string).

Lemma chunking_empty : chunking chunk_size "" [].
Proof. exists []. by repeat split. Qed.

Lemma chunking_app text1 text2 chunks1 chunks2 :
  chunking chunk_size text1 chunks1 → chunking chunk_size text2 chunks2 →
  chunking chunk_size (text1 +:+ text2) (chunks1 ++ chunks2).
Proof.
  intros (r1 & <- & Hr1 & ->) (r2 & <- & Hr2 & ->).
  exists (r1 ++ r2). split; [apply flat_app|].
  split; [by apply Forall_app | by rewrite omap_app].
Qed.

Lemma chunking_length text chunks :
  chunking chunk_size text chunks →
  Forall (λ c, String.length c ≤ chunk_size) chunks.
Proof.
  intros (ranges & _ & Hr & ->). apply Forall_forall. intros c Hc.
  apply list_elem_of_omap in Hc as (r & Hin & Hc).
  apply chunk_of_range_length in Hc.
  pose proof (proj1 (Forall_forall _ _) Hr r Hin) as Hle. simpl in Hle. lia.
Qed.

(** The greedy merge: the pieces, short enough each, are grouped into
    consecutive ranges within the cap. *)
Lemma merge_loop_chunking splits docs cur total :
  total = String.length (Str.flat cur) → total ≤ chunk_size →
  Forall (λ s, s ≠ "") cur →
  Forall (λ s, s ≠ "") splits →
  Forall (λ s, String.length s ≤ chunk_size) splits →
  ∃ chunks,
    merge_loop chunk_size 0 "" splits docs cur total = docs ++ chunks
    ∧ chunking chunk_size (Str.flat cur +:+ Str.flat splits) chunks.
Proof.
  revert docs cur total.
  induction splits as [|d splits IH]; intros docs cur total Htotal Hle Hcur Hne Hlen.
  - rewrite merge_loop_nil. eexists. split; [reflexivity|].
    exists [Str.flat cur]. split; [by rewrite flat_cons|].
    split; [constructor; [lia | constructor]|].
    simpl. by destruct (chunk_of_range (Str.flat cur)).
  - apply Forall_cons in Hne as [Hd Hne]. apply Forall_cons in Hlen as [Hdl Hlen].
    destruct (decide (chunk_size < total + String.length d ∧ cur ≠ [])) as [[Hbig Hc]|Hfit].
    + rewrite merge_loop_emit by done.
      destruct (IH (docs ++ option_list (chunk_of_range (Str.flat cur))) [d]
                  (String.length d)) as (chunks & -> & Hch); try done.
      { by rewrite flat_cons, app_empty_r. }
      { by constructor. }
      exists (option_list (chunk_of_range (Str.flat cur)) ++ chunks).
      split; [by rewrite app_assoc|].
      rewrite flat_cons. rewrite flat_cons, app_empty_r in Hch.
      apply chunking_app; [|done].
      exists [Str.flat cur]. split; [by rewrite flat_cons, app_empty_r|].
      split; [constructor; [lia | constructor]|].
      simpl. by destruct (chunk_of_range (Str.flat cur)).
    + assert (total + String.length d ≤ chunk_size ∨ cur = []) as Hkeep.
      { destruct cur; [by right|]. left.
        destruct (decide (chunk_size < total + String.length d)); [|lia].
        exfalso. by apply Hfit. }
      rewrite merge_loop_keep by done.
      destruct (IH docs (cur ++ [d]) (total + String.length d))
        as (chunks & -> & Hch); try done.
      { rewrite flat_app, length_str_app, flat_cons, app_empty_r. lia. }
      { destruct Hkeep as [?| ->]; [done|]. simpl in Htotal. lia. }
      { apply Forall_app. split; [done | by constructor]. }
      exists chunks. split; [done|].
      by rewrite flat_app, flat_cons, app_empty_r, str_app_assoc in Hch.
Qed.

(** Pieces that fit the cap together make one range. *)
Lemma merge_loop_fits splits docs cur total :
  total = String.length (Str.flat cur) →
  total + String.length (Str.flat splits) ≤ chunk_size →
  merge_loop chunk_size 0 "" splits docs cur total
  = docs ++ option_list (chunk_of_range (Str.flat cur +:+ Str.flat splits)).
Proof.
  revert cur total.
  induction splits as [|d splits IH]; intros cur total Htotal Hle.
  - by rewrite merge_loop_nil, app_empty_r.
  - rewrite flat_cons, length_str_app in Hle.
    rewrite merge_loop_keep by (left; lia).
    rewrite IH.
    + by rewrite flat_app, !flat_cons, app_empty_r, str_app_assoc.
    + rewrite flat_app, length_str_app, flat_cons, app_empty_r. lia.
    + lia.
Qed.

Lemma flush_chunking text good final :
  Forall (λ s, s ≠ "") good →
  Forall (λ s, String.length s < chunk_size) good →
  chunking chunk_size text final →
  chunking chunk_size (text +:+ Str.flat good) (flush chunk_size 0 good final).
Proof.
  intros Hne Hlen Hfinal. unfold flush.
  destruct good as [|g good]; [by rewrite app_empty_r|].
  apply chunking_app; [done|]. unfold merge_splits.
  destruct (merge_loop_chunking (g :: good) [] [] 0) as (chunks & -> & Hch);
    try done; [lia|].
  eapply Forall_impl; [exact Hlen|]. simpl. lia.
Qed.

Lemma flush_fits good :
  String.length (Str.flat good) ≤ chunk_size →
  flush chunk_size 0 good [] = option_list (chunk_of_range (Str.flat good)).
Proof.
  intros Hle. unfold flush. destruct good as [|g good]; [done|].
  unfold merge_splits. by rewrite merge_loop_fits.
Qed.

End chunking.

(** ** The chunk splitter: the recursion over the separators *)

Section recursion.
Import Splitter.
Context (chunk_size : nat).
Implicit Types (s text : string) (splits good final seps : list string).
Implicit Types (recurse : option (string → list string)).

Lemma split_loop_chunking recurse splits good final text :
  match recurse with
  | Some f => ∀ s, chunking chunk_size s (f s)
  | None => Forall (λ s, String.length s < chunk_size) splits
  end →
  Forall (λ s, s ≠ "") splits →
  Forall (λ s, s ≠ "") good →
  Forall (λ s, String.length s < chunk_size) good →
  chunking chunk_size text final →
  chunking chunk_size (text +:+ Str.flat good +:+ Str.flat splits)
    (split_loop chunk_size 0 recurse splits good final).
Proof.
  revert good final text.
  induction splits as [|s splits IH]; intros good final text Hrec Hne Hgne Hglen Hfinal.
  - change (Str.flat []) with "". rewrite app_empty_r. by apply flush_chunking.
  - apply Forall_cons in Hne as [Hs Hne]. simpl split_loop.
    destruct (String.length s <? chunk_size) eqn:Hlt.
    + apply Nat.ltb_lt in Hlt.
      replace (text +:+ Str.flat good +:+ Str.flat (s :: splits))
        with (text +:+ Str.flat (good ++ [s]) +:+ Str.flat splits)
        by (by rewrite flat_app, !flat_cons, app_empty_r, !str_app_assoc).
      apply IH; try done.
      * destruct recurse; [done|]. by apply Forall_cons in Hrec as [_ ?].
      * apply Forall_app. split; [done | by constructor].
      * apply Forall_app. split; [done | by constructor].
    + apply Nat.ltb_ge in Hlt.
      destruct recurse as [f|].
      2: { apply Forall_cons in Hrec as [Hrec _]. lia. }
      replace (text +:+ Str.flat good +:+ Str.flat (s :: splits))
        with (((text +:+ Str.flat good) +:+ s) +:+ Str.flat [] +:+ Str.flat splits)
        by (by rewrite flat_cons, !str_app_assoc).
      apply IH; try done.
      apply chunking_app; [by apply flush_chunking | apply Hrec].
Qed.

Lemma split_loop_all_good recurse splits good final :
  Forall (λ s, String.length s < chunk_size) splits →
  split_loop chunk_size 0 recurse splits good final
  = flush chunk_size 0 (good ++ splits) final.
Proof.
  revert good. induction splits as [|s splits IH]; intros good Hlen.
  - by rewrite app_nil_r.
  - apply Forall_cons in Hlen as [Hs Hlen]. simpl.
    apply Nat.ltb_lt in Hs. rewrite Hs, IH by done.
    by rewrite <- app_assoc.
Qed.

(** Non-empty pieces of a text within the cap are all below the cap, unless
    the text is one piece of exactly that length. *)
Lemma pieces_within_cap splits :
  Forall (λ s, s ≠ "") splits →
  String.length (Str.flat splits) ≤ chunk_size →
  Forall (λ s, String.length s < chunk_size) splits
  ∨ ∃ s, splits = [s] ∧ chunk_size ≤ String.length s.
Proof.
  intros Hne Hle. destruct splits as [|s [|s' l]].
  - left. constructor.
  - destruct (decide (String.length s < chunk_size)).
    + left. by repeat constructor.
    + right. exists s. split; [done | lia].
  - left. apply Forall_cons in Hne as [Hs Hne].
    pose proof Hne as [Hs' _]%Forall_cons.
    apply length_pos in Hs. apply length_pos in Hs'.
    rewrite flat_cons, length_str_app in Hle.
    pose proof (length_flat_elem s' (s' :: l) ltac:(apply list_elem_of_here)).
    apply Forall_cons. split; [lia|].
    apply Forall_forall. intros x Hx.
    pose proof (length_flat_elem x (s' :: l) Hx). lia.
Qed.

Lemma split_loop_fits recurse splits :
  Forall (λ s, s ≠ "") splits →
  String.length (Str.flat splits) ≤ chunk_size →
  match recurse with
  | Some f => ∀ s, String.length s ≤ chunk_size → f s = option_list (chunk_of_range s)
  | None => Forall (λ s, String.length s < chunk_size) splits
  end →
  split_loop chunk_size 0 recurse splits [] []
  = option_list (chunk_of_range (Str.flat splits)).
Proof.
  intros Hne Hle Hrec.
  destruct (pieces_within_cap splits Hne Hle) as [Hgood|(s & -> & Hs)].
  - rewrite split_loop_all_good by done. by apply flush_fits.
  - rewrite flat_cons, app_empty_r in *. simpl.
    replace (String.length s <? chunk_size) with false
      by (symmetry; apply Nat.ltb_ge; lia).
    destruct recurse as [f|].
    + rewrite Hrec by lia. reflexivity.
    + apply Forall_cons in Hrec as [Hrec _]. lia.
Qed.

Lemma split_text_rec_cons s rest text :
  split_text_rec chunk_size 0 (s :: rest) text =
  if Str.is_empty s
  then split_loop chunk_size 0 None (split_text_with_regex text "") [] []
  else if Str.contains s text
  then split_loop chunk_size 0
         (match rest with
          | [] => None
          | _ => Some (split_text_rec chunk_size 0 rest)
          end)
         (split_text_with_regex text s) [] []
  else match rest with
       | [] => split_loop chunk_size 0 None (split_text_with_regex text s) [] []
       | _ => split_text_rec chunk_size 0 rest text
       end.
Proof. reflexivity. Qed.

Lemma chars_below_cap text :
  1 < chunk_size →
  Forall (λ s, String.length s < chunk_size) (split_text_with_regex text "").
Proof.
  intros Hcs. eapply Forall_impl; [apply split_chars_length|].
  simpl. intros s ->. done.
Qed.

(** Whatever the text, the chunks are those of consecutive ranges of it, each
    within the cap. *)
Lemma split_text_rec_chunking seps text :
  1 < chunk_size → "" ∈ seps →
  chunking chunk_size text (split_text_rec chunk_size 0 seps text).
Proof.
  intros Hcs. revert text.
  induction seps as [|s rest IH]; intros text Hin; [by apply elem_of_nil in Hin|].
  rewrite split_text_rec_cons.
  pose proof (λ recurse sep Hrec,
    split_loop_chunking recurse (split_text_with_regex text sep) [] [] "" Hrec
      (split_text_with_regex_nonempty text sep) (Forall_nil_2 _) (Forall_nil_2 _)
      (chunking_empty chunk_size)) as Hloop.
  assert (∀ sep, "" +:+ Str.flat [] +:+ Str.flat (split_text_with_regex text sep) = text)
    as Htext by (intros sep; apply flat_split_text_with_regex).
  destruct (Str.is_empty s) eqn:Hs.
  - specialize (Hloop None "" (chars_below_cap text Hcs)). by rewrite Htext in Hloop.
  - apply is_empty_false in Hs.
    apply elem_of_cons in Hin as [Hin|Hin]; [done|].
    destruct rest as [|s' rest']; [by apply elem_of_nil in Hin|].
    destruct (Str.contains s text); [|by apply IH].
    specialize (Hloop (Some (split_text_rec chunk_size 0 (s' :: rest'))) s
                  (λ s0, IH s0 Hin)).
    by rewrite Htext in Hloop.
Qed.

(** A text within the cap is one range. *)
Lemma split_text_rec_fits seps text :
  1 < chunk_size → "" ∈ seps →
  String.length text ≤ chunk_size →
  split_text_rec chunk_size 0 seps text = option_list (chunk_of_range text).
Proof.
  intros Hcs. revert text.
  induction seps as [|s rest IH]; intros text Hin Hle; [by apply elem_of_nil in Hin|].
  rewrite split_text_rec_cons.
  pose proof (λ recurse sep Hlen Hrec,
    split_loop_fits recurse (split_text_with_regex text sep)
      (split_text_with_regex_nonempty text sep) Hlen Hrec) as Hloop.
  assert (∀ sep, Str.flat (split_text_with_regex text sep) = text)
    as Htext by (intros sep; apply flat_split_text_with_regex).
  destruct (Str.is_empty s) eqn:Hs.
  - rewrite (Hloop None ""); rewrite ?Htext; [done | done | by apply chars_below_cap].
  - apply is_empty_false in Hs.
    apply elem_of_cons in Hin as [Hin|Hin]; [done|].
    destruct rest as [|s' rest']; [by apply elem_of_nil in Hin|].
    destruct (Str.contains s text); [|by apply IH].
    rewrite (Hloop (Some (split_text_rec chunk_size 0 (s' :: rest'))) s);
      rewrite ?Htext; [done | done |].
    intros s0 Hs0. by apply IH.
Qed.

End recursion.

(** ** The text handed to the splitter is trimmed *)

Section trimmed.
Implicit Types (s t a b e : string) (es : list string).

Lemma rstrip_idem s : Str.rstrip (Str.rstrip s) = Str.rstrip s.
Proof.
  induction s as [|c s IH]; [done|]. simpl.
  destruct (Str.is_space c && Str.is_empty (Str.rstrip s)) eqn:Hc; [done|].
  simpl. by rewrite IH, Hc.
Qed.

Lemma lstrip_idem s : Str.lstrip (Str.lstrip s) = Str.lstrip s.
Proof.
  induction s as [|c s IH]; [done|]. simpl.
  destruct (Str.is_space c) eqn:Hc; [done|]. simpl. by rewrite Hc.
Qed.

Lemma rstrip_cons_inv (c : ascii) s :
  Str.rstrip (String c s) = String c s → Str.rstrip s = s.
Proof.
  simpl. destruct (Str.is_space c && Str.is_empty (Str.rstrip s)); [done|].
  by intros [= ->].
Qed.

Lemma lstrip_keeps_rstripped t : Str.rstrip t = t → Str.rstrip (Str.lstrip t) = Str.lstrip t.
Proof.
  induction t as [|c t IH]; [done|]. intros Ht.
  simpl Str.lstrip. destruct (Str.is_space c); [|done].
  apply IH. by apply rstrip_cons_inv in Ht.
Qed.

Lemma strip_idem s : Str.strip (Str.strip s) = Str.strip s.
Proof.
  unfold Str.strip.
  rewrite (lstrip_keeps_rstripped (Str.rstrip s)) by apply rstrip_idem.
  apply lstrip_idem.
Qed.

Lemma rstrip_strip s : Str.rstrip (Str.strip s) = Str.strip s.
Proof. unfold Str.strip. apply lstrip_keeps_rstripped, rstrip_idem. Qed.

Lemma lstrip_strip s : Str.lstrip (Str.strip s) = Str.strip s.
Proof. unfold Str.strip. apply lstrip_idem. Qed.

Lemma lstrip_app a b : Str.lstrip a = a → a ≠ "" → Str.lstrip (a +:+ b) = a +:+ b.
Proof.
  destruct a as [|c a]; [done|]. intros Ha _. simpl in Ha.
  rewrite app_cons. simpl. destruct (Str.is_space c); [|done].
  pose proof (lstrip_length a) as Hlen. rewrite Ha in Hlen. simpl in Hlen. lia.
Qed.

Lemma rstrip_app a b : Str.rstrip b = b → b ≠ "" → Str.rstrip (a +:+ b) = a +:+ b.
Proof.
  intros Hb Hne. induction a as [|c a IH]; [done|].
  rewrite app_cons. simpl. rewrite IH.
  destruct (a +:+ b) eqn:Hab; [|by rewrite andb_false_r].
  destruct a; [by rewrite app_empty_l in Hab | done].
Qed.

Lemma join_trimmed e es :
  Forall (λ e, Str.lstrip e = e ∧ Str.rstrip e = e ∧ e ≠ "") (e :: es) →
  let j := Str.join Str.newline (e :: es) in
  Str.lstrip j = j ∧ Str.rstrip j = j ∧ j ≠ "".
Proof.
  revert e. induction es as [|e' es IH]; intros e He.
  - by apply Forall_cons in He as [He _].
  - apply Forall_cons in He as [(Hl & Hr & Hne) He].
    destruct (IH e' He) as (Hjl & Hjr & Hjne). cbv zeta.
    rewrite join_cons by done. split; [by apply lstrip_app|]. split.
    + rewrite <- str_app_assoc. by apply rstrip_app.
    + destruct e; [done|]. by rewrite app_cons.
Qed.

Lemma extract_text_from_pdf_trimmed (file : upload) :
  Str.strip (extract_text_from_pdf file) = extract_text_from_pdf file.
Proof. apply strip_idem. Qed.

Lemma extract_text_from_docx_trimmed (file : upload) :
  Str.strip (extract_text_from_docx file) = extract_text_from_docx file.
Proof.
  unfold extract_text_from_docx.
  set (ps := filter (λ p, Str.strip p ≠ "") (docx_paragraphs file)).
  assert (Forall (λ e, Str.lstrip e = e ∧ Str.rstrip e = e ∧ e ≠ "") (Str.strip <$> ps)) as Hes.
  { apply Forall_fmap, Forall_forall. intros p Hp. simpl.
    apply list_elem_of_filter in Hp as [Hp _].
    split; [apply lstrip_strip|]. split; [apply rstrip_strip | done]. }
  destruct (Str.strip <$> ps) as [|e es]; [done|].
  destruct (join_trimmed e es Hes) as (Hl & Hr & _).
  unfold Str.strip. by rewrite Hr, Hl.
Qed.

(** Whatever the file, the text that reaches the splitter has no leading or
    trailing whitespace. *)
Lemma document_text_trimmed (file : upload) :
  Str.strip (document_text file) = document_text file.
Proof.
  unfold document_text.
  case_decide; [apply extract_text_from_pdf_trimmed|].
  case_decide; [apply extract_text_from_docx_trimmed | done].
Qed.

End trimmed.

(** ** Claims on the chunk splitter *)

Lemma chunk_of_range_strip (r : string) :
  Splitter.chunk_of_range r
  = if Str.is_empty (Str.strip r) then None else Some (Str.strip r).
Proof. reflexivity. Qed.

Lemma split_text_chunking (chunk_size : nat) (text : string) :
  1 < chunk_size →
  Splitter.chunking chunk_size text (Splitter.split_text chunk_size 0 text).
Proof.
  intros Hcs. apply split_text_rec_chunking; [done|].
  unfold Splitter.separators. set_solver.
Qed.

(** C4: for every text T of more than 5000 characters, the chunks of the
    splitter are those of consecutive source ranges of T (at least two):
    the ranges, one after the other, are T, so that no character is lost and
    no two chunks overlap; each chunk is its range without the whitespace at
    its two ends (a range of whitespace only gives no chunk); and no range,
    hence no chunk, has more than 5000 characters. *)
Theorem C4_split_long_text (T : string) :
  5000 < String.length T →
  let chunks := Splitter.split_text 5000 0 T in
  (∃ ranges : list string,
     Str.flat ranges = T
     ∧ 2 ≤ length ranges
     ∧ Forall (λ r, String.length r ≤ 5000) ranges
     ∧ chunks = omap (λ r, if Str.is_empty (Str.strip r) then None
                           else Some (Str.strip r)) ranges)
  ∧ Forall (λ c, String.length c ≤ 5000) chunks.
Proof.
  intros Hlen chunks.
  pose proof (split_text_chunking 5000 T ltac:(lia)) as Hch. fold chunks in Hch.
  split; [|by apply (chunking_length 5000 T)].
  destruct Hch as (ranges & Hflat & Hr & Hc).
  exists ranges. split; [done|]. split; [|by split].
  destruct ranges as [|r [|r' ranges]]; [| |simpl; lia].
  - subst T. simpl in Hlen. lia.
  - apply Forall_cons in Hr as [Hr _].
    rewrite flat_cons, app_empty_r in Hflat. subst r. lia.
Qed.

Lemma C4_split_long_text_witness :
  5000 < String.length long_text
  ∧ Forall (λ c, String.length c ≤ 5000) (Splitter.split_text 5000 0 long_text).
Proof.
  assert (5000 < String.length long_text) as Hlen.
  { apply Nat.ltb_lt. vm_compute. reflexivity. }
  split; [exact Hlen|].
  exact (proj2 (C4_split_long_text long_text Hlen)).
Defined.

(** A text within the cap is one range, hence at most one chunk. *)
Lemma split_text_within_cap (T : string) :
  String.length T ≤ 5000 →
  Splitter.split_text 5000 0 T = option_list (Splitter.chunk_of_range T).
Proof.
  intros Hlen. apply split_text_rec_fits; [lia | | done].
  unfold Splitter.separators. set_solver.
Qed.

(** C5: a non-empty text T of at most 5000 characters, trimmed as the
    extraction leaves it, is split into exactly one chunk, T itself.  The
    empty text is split into no chunk, and [process_document] returns [None]
    for a document whose text is empty, without calling the model. *)
Theorem C5_split_short_text (T : string) :
  String.length T ≤ 5000 →
  (T ≠ "" → Str.strip T = T → Splitter.split_text 5000 0 T = [T])
  ∧ (T = "" →
     Splitter.split_text 5000 0 T = []
     ∧ ∀ (remote : llm) (file : upload) (log : list string),
         document_text file = T → process_document remote file log = (Ok None, log)).
Proof.
  intros Hlen. rewrite (split_text_within_cap T Hlen), chunk_of_range_strip. split.
  - intros Hne ->. by destruct T.
  - intros ->. split; [done|].
    intros remote file log Htext. unfold process_document. by rewrite Htext.
Qed.

Lemma C5_split_short_text_witness :
  Splitter.split_text 5000 0 "Pump, 3 kW" = ["Pump, 3 kW"].
Proof.
  apply (C5_split_short_text "Pump, 3 kW"); [simpl; lia | discriminate | reflexivity].
Defined.

(** The text of any uploaded document that fits the cap is one chunk. *)
Lemma document_single_chunk (file : upload) :
  document_text file ≠ "" →
  String.length (document_text file) ≤ 5000 →
  Splitter.split_text 5000 0 (document_text file) = [document_text file].
Proof.
  intros Hne Hlen.
  rewrite (split_text_within_cap _ Hlen), chunk_of_range_strip, document_text_trimmed.
  by destruct (document_text file).
Qed.

(** ** The definitions at work *)

Example split_at_words :
  Splitter.split_text 10 0 "aaa bbb ccc ddd eee" = ["aaa bbb"; "ccc ddd"; "eee"].
Proof. vm_compute. reflexivity. Qed.

Example split_hard_cut :
  Splitter.split_text 4 0 "abcdefghij" = ["abcd"; "efgh"; "ij"].
Proof. vm_compute. reflexivity. Qed.

Example split_whitespace_only : Splitter.split_text 10 0 "     " = [].
Proof. vm_compute. reflexivity. Qed.

Example split_long_text :
  String.length <$> Splitter.split_text 5000 0 long_text = [4999; 4].
Proof. vm_compute. reflexivity. Qed.

Example re_split_pieces : Splitter.re_split "ab" "xabyababz" = ["x"; "y"; ""; "z"].
Proof. vm_compute. reflexivity. Qed.

Example split_lines : Str.split Str.nl two_lines = ["Item A"; "Item B"].
Proof. vm_compute. reflexivity. Qed.

Example strip_both_ends : Str.strip "  Valve DN50 " = "Valve DN50".
Proof. vm_compute. reflexivity. Qed.

Example docx_text : document_text doc_c = "Valve DN50
Flange".
Proof. vm_compute. reflexivity. Qed.

Example scan_has_no_text : process_document remote_ok doc_scan [] = (Ok None, []).
Proof. vm_compute. reflexivity. Qed.

Example first_run :
  (session_after remote_ok [upload_only doc_a]).1
  = Session (Some (Some [two_lines])) (Some "a.pdf") (Some ["Item A"; "Item B"]).
Proof. vm_compute. reflexivity. Qed.

Example last_duplicate_header_wins :
  col_indices (sheet_of_rows [[VStr "Description"; VNone; VStr "Description"]])
    !! VStr "Description" = Some 3%positive.
Proof. vm_compute. reflexivity. Qed.

(** * Further properties of the script *)

(** ** The template filler *)






(** X2: the handler touches the style of the Description cells only: in a
    workbook it saves, the Description 2 cell of a filled row has the empty
    string as value and the wrap setting it had in the template. *)
Theorem X2_description2_keeps_style (template wb : sheet) (edited_data : list string)
    (path : string) (c2 : positive) (i : nat) :
  saved (fill_template template edited_data) = Some (path, wb) →
  col_indices template !! VStr "Description 2" = Some c2 →
  i < length edited_data →
  get_cell wb (Pos.of_nat (2 + i)) c2
  = Cell (VStr "") (wrap_text (get_cell template (Pos.of_nat (2 + i)) c2)).
Proof.
  intros Hs Hd2 Hi.
  destruct (fill_template_saved _ _ _ _ Hs) as (desc_col & values & Hd & Hall & ->).
  pose proof (Forall2_length _ _ _ Hall) as Hlen.
  change (2 + i) with (Pos.to_nat 2 + i).
  apply write_rows_description2; [done| |lia].
  by apply (description_columns_differ _ _ _ Hd Hd2).
Qed.

Lemma X2_description2_keeps_style_witness :
  ∃ wb, saved (fill_template template3 ["a"; "b"]) = Some ("updated_template.xlsx", wb)
    ∧ get_cell wb 3 3 = Cell (VStr "") false.
Proof.
  eexists. split; [vm_compute; reflexivity|].
  apply (X2_description2_keeps_style template3 _ ["a"; "b"] "updated_template.xlsx" 3 1);
    [reflexivity | reflexivity | simpl; lia].
Defined.






(** ** The file name and the text extraction *)

Lemma last_app_nonempty (l1 l2 : list string) (d : string) :
  l2 ≠ [] → List.last (l1 ++ l2) d = List.last l2 d.
Proof.
  intros Hne. induction l1 as [|x l1 IH]; [done|].
  simpl. rewrite IH. destruct (l1 ++ l2) eqn:Happ; [|done].
  by apply app_eq_nil in Happ as [_ ->].
Qed.

Lemma extension_after_dot (stem ext : string) :
  Str.contains "." ext = false →
  List.last (Str.split "." (stem +:+ "." +:+ ext)) "" = ext.
Proof.
  intros Hext. change (stem +:+ "." +:+ ext) with (stem +:+ String "." ext).
  rewrite split_app_sep, last_app_nonempty by apply split_nonempty.
  by rewrite split_no_sep.
Qed.

(** X5: the extension is what follows the last dot of the file name: for an
    [ext] without a dot, the file [stem.ext] has extension [ext], whatever
    the stem (dots included); and a name without any dot is its own
    extension. *)
Theorem X5_file_extension_suffix (stem ext : string)
    (pages : list (option string)) (paragraphs : list string) :
  Str.contains "." ext = false →
  file_extension (Upload (stem +:+ "." +:+ ext) pages paragraphs) = ext
  ∧ file_extension (Upload ext pages paragraphs) = ext.
Proof.
  intros Hext. unfold file_extension. simpl name. split.
  - by apply extension_after_dot.
  - by rewrite split_no_sep.
Qed.

Lemma X5_file_extension_suffix_witness :
  file_extension (Upload "offer.v2.final.docx" [] []) = "docx"
  ∧ file_extension (Upload "docx" [] []) = "docx".
Proof.
  apply (X5_file_extension_suffix "offer.v2.final" "docx" [] []). reflexivity.
Defined.

(** The pages of a PDF that have text. *)
Lemma pdf_fold (pages : list (option string)) (text : string) :
  foldl (λ text page_text,
           match page_text with
           | Some t => if Str.is_empty t then text else text +:+ t +:+ Str.newline
           | None => text
           end) text pages
  = text +:+ Str.flat ((λ t, t +:+ Str.newline)
                         <$> omap (λ p, p ≫= λ t, if Str.is_empty t then None else Some t)
                               pages).
Proof.
  revert text. induction pages as [|[t|] pages IH]; intros text.
  - simpl. by rewrite app_empty_r.
  - cbn [foldl omap list_omap mbind option_bind]. rewrite IH.
    destruct (Str.is_empty t); [done|].
    cbn [fmap list_fmap]. by rewrite flat_cons, !str_app_assoc.
  - cbn [foldl omap list_omap mbind option_bind]. apply IH.
Qed.

(** X6: the text of a PDF is made of the pages that have text, in order,
    each followed by a newline, the whole trimmed; a page for which the
    parser gives nothing or the empty string leaves no trace, not even a
    newline. *)
Theorem X6_pdf_text_of_pages (file : upload) :
  extract_text_from_pdf file
  = Str.strip (Str.flat ((λ t, t +:+ Str.newline)
                           <$> omap (λ p, p ≫= λ t, if Str.is_empty t then None else Some t)
                                 (pdf_pages file))).
Proof. unfold extract_text_from_pdf. by rewrite pdf_fold, app_empty_l. Qed.

(** X7: a PDF none of whose pages has text (a scan) is treated as having no
    content: [process_document] returns [None] and sends nothing to the
    model. *)
Theorem X7_pdf_without_text (remote : llm) (file : upload) (log : list string) :
  file_extension file = "pdf" →
  Forall (λ p, p = None ∨ p = Some "") (pdf_pages file) →
  process_document remote file log = (Ok None, log).
Proof.
  intros Hext Hpages.
  assert (document_text file = "") as Htext.
  { unfold document_text. rewrite decide_True by done.
    unfold extract_text_from_pdf. rewrite pdf_fold, app_empty_l.
    replace (omap _ (pdf_pages file)) with (@nil string); [done|].
    symmetry. induction Hpages as [|p pages [->| ->] _ IH]; simpl; by rewrite ?IH. }
  unfold process_document. by rewrite Htext.
Qed.

Lemma X7_pdf_without_text_witness :
  process_document remote_ok doc_scan [] = (Ok None, []).
Proof.
  apply (X7_pdf_without_text remote_ok doc_scan []); [reflexivity|].
  constructor; [by left|]. constructor; [by right|]. constructor.
Defined.

Lemma filter_nonblank_nil (paragraphs : list string) :
  filter (λ p, Str.strip p ≠ "") paragraphs = []
  ↔ Forall (λ p, Str.strip p = "") paragraphs.
Proof.
  induction paragraphs as [|p ps IH]; [by split; [constructor|]|].
  rewrite filter_cons. case_decide as Hp.
  - split; [done|]. intros [Hb _]%Forall_cons. done.
  - rewrite IH. split.
    + intros Hps. constructor; [|done]. by destruct (decide (Str.strip p = "")).
    + by intros [_ ?]%Forall_cons.
Qed.

Lemma kept_paragraphs_trimmed (paragraphs : list string) :
  Forall (λ e, Str.lstrip e = e ∧ Str.rstrip e = e ∧ e ≠ "")
    (Str.strip <$> filter (λ p, Str.strip p ≠ "") paragraphs).
Proof.
  apply Forall_fmap, Forall_forall. intros p Hp. simpl.
  apply list_elem_of_filter in Hp as [Hp _].
  split; [apply lstrip_strip|]. split; [apply rstrip_strip | done].
Qed.

(** X8: the text of a DOCX file is empty exactly when every paragraph is
    blank (empty or whitespace only); such a document is then "nothing to
    process". *)
Theorem X8_docx_text_empty_iff_blank (file : upload) :
  extract_text_from_docx file = ""
  ↔ Forall (λ p, Str.strip p = "") (docx_paragraphs file).
Proof.
  unfold extract_text_from_docx. rewrite <- filter_nonblank_nil.
  pose proof (kept_paragraphs_trimmed (docx_paragraphs file)) as Hkept.
  destruct (filter _ (docx_paragraphs file)) as [|p ps]; [done|].
  split; [|done]. intros Hempty. rewrite fmap_cons in Hkept, Hempty.
  by destruct (join_trimmed _ _ Hkept) as (_ & _ & Hne).
Qed.

Lemma lstrip_no_char (c : ascii) (s : string) :
  Str.contains (String c "") s = false → Str.contains (String c "") (Str.lstrip s) = false.
Proof.
  induction s as [|a s IH]; [done|]. intros Hs. simpl Str.lstrip.
  destruct (Str.is_space a); [|done].
  apply IH. simpl in Hs. by apply orb_false_elim in Hs as [_ Hs].
Qed.

Lemma rstrip_no_char (c : ascii) (s : string) :
  Str.contains (String c "") s = false → Str.contains (String c "") (Str.rstrip s) = false.
Proof.
  induction s as [|a s IH]; [done|]. intros Hs. simpl in Hs.
  apply orb_false_elim in Hs as [Ha Hs]. specialize (IH Hs). simpl Str.rstrip.
  destruct (Str.is_space a && Str.is_empty (Str.rstrip s)); [done|].
  simpl. by rewrite Ha, IH.
Qed.

(** X9: when no paragraph has a line break inside it and not all are
    blank, the lines of the text of a DOCX file are its non-blank
    paragraphs, trimmed, in order: one line per paragraph, no empty line. *)
Theorem X9_docx_lines_are_paragraphs (file : upload) :
  (∀ p, p ∈ docx_paragraphs file → Str.contains Str.newline p = false) →
  ¬ Forall (λ p, Str.strip p = "") (docx_paragraphs file) →
  Str.split Str.nl (extract_text_from_docx file)
  = Str.strip <$> filter (λ p, Str.strip p ≠ "") (docx_paragraphs file).
Proof.
  intros Hnl Hsome. rewrite <- filter_nonblank_nil in Hsome.
  unfold extract_text_from_docx.
  assert (∀ e, e ∈ Str.strip <$> filter (λ p, Str.strip p ≠ "") (docx_paragraphs file) →
               Str.contains Str.newline e = false) as Hlines.
  { intros e (p & -> & Hp)%list_elem_of_fmap.
    apply list_elem_of_filter in Hp as [_ Hp].
    apply lstrip_no_char, rstrip_no_char, Hnl, Hp. }
  destruct (filter _ (docx_paragraphs file)) as [|p ps]; [done|].
  rewrite fmap_cons in *. rewrite split_join_newline.
  by apply concat_split_no_newline.
Qed.

Lemma X9_docx_lines_are_paragraphs_witness :
  Str.split Str.nl (extract_text_from_docx doc_c) = ["Valve DN50"; "Flange"].
Proof.
  apply (X9_docx_lines_are_paragraphs doc_c).
  - intros p Hp. simpl in Hp.
    repeat (apply elem_of_cons in Hp as [->|Hp]; [reflexivity|]).
    by apply elem_of_nil in Hp.
  - intros [Hp _]%Forall_cons. vm_compute in Hp. discriminate.
Defined.

(** X10: whatever the file, the text [process_document] works on has no
    whitespace at either end: trimming it changes nothing, and its first
    character, if any, is not a whitespace character. *)
Theorem X10_document_text_has_no_margin (file : upload) :
  Str.strip (document_text file) = document_text file
  ∧ ∀ c rest, document_text file = String c rest → Str.is_space c = false.
Proof.
  pose proof (document_text_trimmed file) as Ht. split; [done|].
  intros c rest Hc. pose proof (lstrip_strip (document_text file)) as Hl.
  rewrite Ht, Hc in Hl. simpl in Hl.
  destruct (Str.is_space c); [|done].
  pose proof (lstrip_length rest) as Hlen. rewrite Hl in Hlen. simpl in Hlen. lia.
Qed.

(** ** The extraction loop and the prompt *)

Lemma extract_chunks_answered (remote : llm) (chunks acc log : list string) :
  (∀ log p, ∃ content, remote log p = inl content) →
  ∃ blocks,
    extract_chunks remote chunks acc log = (Ok (acc ++ blocks), log ++ (prompt <$> chunks))
    ∧ length blocks = length chunks
    ∧ ∀ i chunk, chunks !! i = Some chunk →
        ∃ content,
          remote (log ++ (prompt <$> take i chunks)) (prompt chunk) = inl content
          ∧ blocks !! i = Some (Str.strip content).
Proof.
  intros Hok. revert acc log.
  induction chunks as [|chunk rest IH]; intros acc log.
  - exists []. simpl. unfold mret, M_ret. rewrite !app_nil_r. by repeat split.
  - rewrite extract_chunks_cons.
    destruct (Hok log (prompt chunk)) as [content Hc]. rewrite Hc.
    destruct (IH (acc ++ [Str.strip content]) (log ++ [prompt chunk]))
      as (blocks & -> & Hlen & Hblocks).
    exists (Str.strip content :: blocks).
    rewrite fmap_cons, <- !app_assoc. split; [done|]. split; [simpl; lia|].
    intros [|i] chunk' Hi; simpl in Hi.
    + injection Hi as <-. exists content. simpl. by rewrite app_nil_r.
    + destruct (Hblocks i chunk' Hi) as (content' & Hc' & Hb).
      exists content'. split; [|done].
      change (take (S i) (chunk :: rest)) with (chunk :: take i rest).
      rewrite fmap_cons. by rewrite <- app_assoc in Hc'.
Qed.

(** X11: when the remote service answers every call, [process_document] on a
    document with text returns one block per chunk, in chunk order: block
    [i] is the answer to the prompt of chunk [i], trimmed, that answer being
    the one the service gives after the prompts of chunks 0 to [i - 1]; and
    it has sent exactly the prompts of the chunks, in that order. *)
Theorem X11_one_block_per_chunk (remote : llm) (file : upload) (log : list string) :
  (∀ log p, ∃ content, remote log p = inl content) →
  document_text file ≠ "" →
  let text_chunks := Splitter.split_text 5000 0 (document_text file) in
  ∃ data, process_document remote file log
          = (Ok (Some data), log ++ (prompt <$> text_chunks))
    ∧ length data = length text_chunks
    ∧ ∀ i chunk, text_chunks !! i = Some chunk →
        ∃ content,
          remote (log ++ (prompt <$> take i text_chunks)) (prompt chunk) = inl content
          ∧ data !! i = Some (Str.strip content).
Proof.
  intros Hok Htext text_chunks. unfold process_document.
  destruct (document_text file) as [|a t] eqn:Ht; [done|].
  change (Str.is_empty (String a t)) with false. cbv iota.
  destruct (extract_chunks_answered remote text_chunks [] log Hok)
    as (data & Hrun & Hlen & Hdata).
  exists data. unfold mbind, M_bind. fold text_chunks. rewrite Hrun.
  by repeat split.
Qed.

Lemma X11_one_block_per_chunk_witness :
  ∃ data, process_document remote_ok doc_a [] = (Ok (Some data), [prompt "Pump, 3 kW"])
    ∧ data !! 0 = Some two_lines.
Proof.
  destruct (X11_one_block_per_chunk remote_ok doc_a [])
    as (data & Hrun & Hlen & Hdata).
  - intros log p. by exists two_lines.
  - vm_compute. discriminate.
  - exists data. split; [exact Hrun|].
    destruct (Hdata 0 "Pump, 3 kW" ltac:(vm_compute; reflexivity))
      as (content & Hc & Hb).
    injection Hc as <-. exact Hb.
Defined.

Lemma app_inj_r (s1 s2 t : string) : s1 +:+ t = s2 +:+ t → s1 = s2.
Proof.
  revert s2. induction s1 as [|a s1 IH]; intros s2 H.
  - apply (f_equal String.length) in H. rewrite !length_str_app in H.
    destruct s2; [done | simpl in H; lia].
  - destruct s2 as [|b s2].
    + apply (f_equal String.length) in H. rewrite !length_str_app in H. simpl in H. lia.
    + rewrite !app_cons in H. injection H as -> H. f_equal. by apply IH.
Qed.

Lemma startswith_app (p s : string) : Str.startswith p (p +:+ s) = true.
Proof.
  induction p as [|a p IH]; [done|]. rewrite app_cons. simpl.
  by rewrite decide_True.
Qed.

Lemma contains_startswith (p s : string) :
  Str.startswith p s = true → Str.contains p s = true.
Proof. intros H. destruct s; simpl; by rewrite H. Qed.

Lemma contains_app_l (p a s : string) :
  Str.contains p s = true → Str.contains p (a +:+ s) = true.
Proof.
  intros H. induction a as [|x a IH]; [done|].
  rewrite app_cons. simpl. rewrite IH. apply orb_true_r.
Qed.

(** X12: the prompt embeds the chunk verbatim, and two different chunks
    never give the same prompt. *)
Theorem X12_prompt_embeds_chunk :
  (∀ chunk, Str.contains chunk (prompt chunk) = true)
  ∧ (∀ chunk1 chunk2, prompt chunk1 = prompt chunk2 → chunk1 = chunk2).
Proof.
  split.
  - intros chunk. unfold prompt.
    apply contains_app_l, contains_startswith, startswith_app.
  - intros chunk1 chunk2 H. unfold prompt in H.
    apply (inj (String.app _)) in H. by apply app_inj_r in H.
Qed.

(** ** The session across runs *)

Lemma extract_chunks_raises (remote : llm) (chunks acc log : list string)
    (e : exn) (log' : list string) :
  extract_chunks remote chunks acc log = (Raise e, log') → ∃ le, e = LlmError le.
Proof.
  revert acc log. induction chunks as [|chunk rest IH]; intros acc log H; [done|].
  rewrite extract_chunks_cons in H.
  destruct (remote log (prompt chunk)) as [content|le]; [by eapply IH|].
  injection H as <- _. eauto.
Qed.

Lemma process_document_raises (remote : llm) (file : upload) (log : list string)
    (e : exn) (log' : list string) :
  process_document remote file log = (Raise e, log') → ∃ le, e = LlmError le.
Proof.
  unfold process_document. destruct (Str.is_empty (document_text file)); [done|].
  unfold mbind, M_bind.
  destruct (extract_chunks remote _ [] log) as [[data|e'] l] eqn:Hrun; [done|].
  intros [= <- _]. by eapply extract_chunks_raises.
Qed.

(** What the first part of the script (lines 90-93) leaves when it does not
    raise: the edited lines are untouched, and with a file uploaded the two
    keys are set, the stored name being the file's. *)
Lemma store_extraction_ok (remote : llm) (w : widgets) (ss ss0 : session_state)
    (log log' : list string) :
  store_extraction remote w ss log = (Ok ss0, log') →
  edited_data ss0 = edited_data ss
  ∧ ∀ file, uploaded_file w = Some file →
      is_Some (extracted_data ss0) ∧ file_name ss0 = Some (name file).
Proof.
  unfold store_extraction. destruct (uploaded_file w) as [file|].
  2: { intros [= <- _]. by split. }
  assert (∀ m : M session_state,
    m = (data ← process_document remote file;
         mret (Session (Some data) (Some (name file)) (edited_data ss))) →
    m log = (Ok ss0, log') →
    edited_data ss0 = edited_data ss
    ∧ ∀ file0, Some file = Some file0 →
        is_Some (extracted_data ss0) ∧ file_name ss0 = Some (name file0)) as Hrerun.
  { intros m -> H. unfold mbind, M_bind, mret, M_ret in H.
    destruct (process_document remote file log) as [[data|e] l]; [|done].
    injection H as <- _. split; [done|]. intros file0 [= <-]. simpl. eauto. }
  destruct (extracted_data ss) as [d|] eqn:Hd; [|by apply Hrerun].
  destruct (file_name ss) as [stored|] eqn:Hn; [|done].
  case_decide as Hne; [by apply Hrerun|].
  intros [= <- _]. split; [done|]. intros file0 [= <-].
  rewrite Hd, Hn. split; [eauto|]. f_equal.
  by destruct (decide (stored = name file)).
Qed.

Lemma script_ok (remote : llm) (w : widgets) (ss : session_state)
    (log log' : list string) (r : session_state * option fill_report) :
  script remote w ss log = (Ok r, log') →
  ∃ ss0, store_extraction remote w ss log = (Ok ss0, log') ∧ r = review w ss0.
Proof.
  unfold script, mbind, M_bind, mret, M_ret.
  destruct (store_extraction remote w ss log) as [[ss0|e] l]; [|done].
  intros [= <- <-]. eauto.
Qed.

Lemma script_raises (remote : llm) (w : widgets) (ss : session_state)
    (log log' : list string) (e : exn) :
  keys_together ss →
  script remote w ss log = (Raise e, log') → ∃ le, e = LlmError le.
Proof.
  intros Hinv. unfold script, mbind at 1, M_bind at 1, mret, M_ret.
  destruct (store_extraction remote w ss log) as [[ss0|e'] l] eqn:Hst; [done|].
  intros [= <- _]. unfold store_extraction in Hst.
  destruct (uploaded_file w) as [file|]; [|done].
  assert (∀ m : M session_state,
    m = (data ← process_document remote file;
         mret (Session (Some data) (Some (name file)) (edited_data ss))) →
    m log = (Raise e', l) → ∃ le, e' = LlmError le) as Hrerun.
  { intros m -> H. unfold mbind, M_bind, mret, M_ret in H.
    destruct (process_document remote file log) as [[data|e0] l0] eqn:Hp; [done|].
    injection H as <- _. by eapply process_document_raises. }
  destruct (extracted_data ss) as [d|] eqn:Hd; [|by eapply Hrerun].
  destruct (file_name ss) as [stored|] eqn:Hn.
  - case_decide; [by eapply Hrerun | done].
  - destruct Hinv as [_ Hinv]. by rewrite Hinv in Hd.
Qed.

(** X13: whatever the sequence of runs so far, the next run never ends with
    a KeyError: the lookup of ["file_name"] in line 91 always finds the
    key, because it is written whenever ["extracted_data"] is. *)
Theorem X13_no_key_error (remote : llm) (ws : list widgets) (w : widgets) (key : string) :
  raised (script remote w (session_after remote ws).1 (session_after remote ws).2)
  ≠ Some (KeyError key).
Proof.
  pose proof (session_keys_together remote ws) as Hinv.
  destruct (session_after remote ws) as [ss log]. simpl in *.
  unfold raised.
  destruct (script remote w ss log) as [[r|e] log'] eqn:Hs; [done|]. simpl.
  destruct (script_raises _ _ _ _ _ _ Hinv Hs) as [le ->]. done.
Qed.

Lemma review_idem (w : widgets) (ss : session_state) :
  (review w (review w ss).1).1 = (review w ss).1.
Proof.
  destruct (extracted_data ss) as [[[|b bs]|]|] eqn:Hd.
  - unfold review at 2. rewrite Hd. simpl. unfold review. by rewrite Hd.
  - assert ((review w ss).1
            = Session (extracted_data ss) (file_name ss)
                (Some (Str.split Str.nl (text_area w (Str.join Str.newline (b :: bs))))))
      as ->.
    { unfold review. rewrite Hd.
      destruct (excel_template w); [destruct (fill_clicked w)|]; reflexivity. }
    unfold review. simpl. rewrite Hd.
    destruct (excel_template w); [destruct (fill_clicked w)|]; reflexivity.
  - unfold review at 2. rewrite Hd. simpl. unfold review. by rewrite Hd.
  - unfold review at 2. rewrite Hd. simpl. unfold review. by rewrite Hd.
Qed.

(** X14: the session state prevents re-extraction: after a run that did not
    raise, a second run with the same widgets changes nothing, neither the
    session state nor the prompts sent. *)
Theorem X14_second_run_changes_nothing (remote : llm) (w : widgets)
    (st : session_state * list string) (r : session_state * option fill_report)
    (log' : list string) :
  script remote w st.1 st.2 = (Ok r, log') →
  run remote w (run remote w st) = run remote w st.
Proof.
  intros Hs.
  assert (run remote w st = (r.1, log')) as Hrun.
  { unfold run. rewrite Hs. by destruct r. }
  rewrite Hrun.
  destruct (script_ok _ _ _ _ _ _ Hs) as (ss0 & Hst & ->).
  destruct (store_extraction_ok _ _ _ _ _ _ Hst) as [_ Hkeys].
  destruct (review_keeps_extraction w ss0) as [Hk1 Hk2].
  destruct (uploaded_file w) as [file|] eqn:Hup.
  - destruct (Hkeys file eq_refl) as [Hsome Hname].
    rewrite (run_same_name _ _ file) by (by rewrite ?Hk1, ?Hk2).
    by rewrite review_idem.
  - rewrite run_no_upload by done. by rewrite review_idem.
Qed.

Lemma X14_second_run_changes_nothing_witness :
  run remote_ok (fill_widgets doc_a) (run remote_ok (fill_widgets doc_a) (empty_session, []))
  = run remote_ok (fill_widgets doc_a) (empty_session, []).
Proof.
  eapply (X14_second_run_changes_nothing remote_ok (fill_widgets doc_a) (empty_session, [])).
  vm_compute. reflexivity.
Defined.

(** ** The edited lines *)

Lemma join_split (c : ascii) (s : string) :
  Str.join (String c "") (Str.split c s) = s.
Proof.
  induction s as [|a s IH]; [done|]. simpl Str.split.
  pose proof (split_nonempty c s) as Hne. case_decide as Hc.
  - subst a. by rewrite join_cons, IH by done.
  - destruct (Str.split c s) as [|p ps]; [done|].
    by rewrite join_cons_char, IH.
Qed.

Lemma split_no_char (c : ascii) (s : string) :
  Forall (λ l, Str.contains (String c "") l = false) (Str.split c s).
Proof.
  induction s as [|a s IH]; simpl Str.split; [by repeat constructor|].
  pose proof (split_nonempty c s) as Hne. case_decide as Hc.
  - by constructor.
  - destruct (Str.split c s) as [|p ps]; [done|].
    apply Forall_cons in IH as [Hp Hps]. constructor; [|done].
    simpl. rewrite decide_False by congruence. simpl.
    destruct p; simpl in *; done.
Qed.

(** X15: the edited lines stored by the review are the text of the text area
    cut at its newlines and nothing else: joined with newlines they give the
    text back, and no line contains a newline, so every spreadsheet cell
    receives a single line. *)
Theorem X15_edited_lines_are_the_text (w : widgets) (ss : session_state)
    (b : string) (bs : list string) :
  extracted_data ss = Some (Some (b :: bs)) →
  ∃ lines, edited_data (review w ss).1 = Some lines
    ∧ Str.join Str.newline lines = text_area w (Str.join Str.newline (b :: bs))
    ∧ Forall (λ l, Str.contains Str.newline l = false) lines.
Proof.
  intros Hd. rewrite (review_edited w ss b bs Hd). eexists. split; [reflexivity|].
  split; [apply join_split | apply split_no_char].
Qed.

Lemma X15_edited_lines_are_the_text_witness :
  ∃ lines,
    edited_data (review (upload_only doc_a)
                   (Session (Some (Some [two_lines; ""; "C"])) (Some "a.pdf") None)).1
    = Some lines
    ∧ Str.join Str.newline lines = Str.join Str.newline [two_lines; ""; "C"]
    ∧ Forall (λ l, Str.contains Str.newline l = false) lines.
Proof.
  apply (X15_edited_lines_are_the_text (upload_only doc_a)
           (Session (Some (Some [two_lines; ""; "C"])) (Some "a.pdf") None)
           two_lines [""; "C"]).
  reflexivity.
Defined.

Lemma review_edited_cases (w : widgets) (ss : session_state) :
  edited_data (review w ss).1 = edited_data ss
  ∨ ∃ text, edited_data (review w ss).1 = Some (Str.split Str.nl text).
Proof.
  destruct (extracted_data ss) as [[[|b bs]|]|] eqn:Hd.
  - left. unfold review. by rewrite Hd.
  - right. eexists. by apply review_edited.
  - left. unfold review. by rewrite Hd.
  - left. unfold review. by rewrite Hd.
Qed.

(** X16: in every session, whatever the runs so far, the stored edited lines
    are never the empty list: once set, they hold at least one line, so the
    fill loop always has a row to write. *)
Theorem X16_edited_lines_never_empty (remote : llm) (ws : list widgets) :
  edited_data (session_after remote ws).1 ≠ Some [].
Proof.
  induction ws as [|w ws IH] using rev_ind; [done|].
  rewrite session_after_snoc.
  destruct (session_after remote ws) as [ss log]. simpl in IH.
  unfold run. simpl.
  destruct (script remote w ss log) as [[r|e] log'] eqn:Hs; [|done].
  destruct (script_ok _ _ _ _ _ _ Hs) as (ss0 & Hst & ->).
  destruct (store_extraction_ok _ _ _ _ _ _ Hst) as [Hed _].
  destruct (review w ss0) as [ss1 rep] eqn:Hrev. simpl.
  destruct (review_edited_cases w ss0) as [Hsame|[text Hnew]];
    rewrite Hrev in *; simpl in *.
  - by rewrite Hsame, Hed.
  - rewrite Hnew. intros [= Hnil]. by apply (split_nonempty Str.nl text).
Qed.

(** ** Start-up *)

(** X17: when one of the three settings is not set, or is set to the empty
    string, the script shows the configuration error and stops: no prompt is
    sent, the session state is untouched and nothing is filled, whatever
    the widgets hold. *)
Theorem X17_missing_setting_stops (environ : gmap string string) (remote : llm)
    (w : widgets) (ss : session_state) (log : list string) (key : string) :
  key ∈ ["OPENAI_DEPLOYMENT_NAME"; "AZURE_OPENAI_ENDPOINT"; "OPENAI_API_KEY"] →
  getenv environ key = None ∨ getenv environ key = Some "" →
  main environ remote w ss log
  = (Ok (ss, [UiError "Missing required environment variables. Check your .env file."],
         None), log).
Proof.
  intros Hkey Hval.
  assert (truthy (getenv environ key) = false) as Hfalse
    by (by destruct Hval as [-> | ->]).
  assert (configured environ = false) as Hconf.
  { unfold configured. simpl.
    repeat (apply elem_of_cons in Hkey as [->|Hkey];
            [rewrite Hfalse; by rewrite ?andb_false_r|]).
    by apply elem_of_nil in Hkey. }
  unfold main. by rewrite Hconf.
Qed.

Lemma X17_missing_setting_stops_witness :
  main environ_no_key remote_ok (fill_widgets doc_a) empty_session []
  = (Ok (empty_session,
         [UiError "Missing required environment variables. Check your .env file."],
         None), []).
Proof.
  apply (X17_missing_setting_stops environ_no_key remote_ok (fill_widgets doc_a)
           empty_session [] "OPENAI_API_KEY").
  - apply (bool_decide_unpack _). vm_compute. exact I.
  - right. vm_compute. reflexivity.
Defined.

(** With the three settings present and not empty, the start-up check lets
    the script run: the session state, the prompts sent and what is filled
    are those of the script, and no start-up message is shown. *)
Lemma configured_runs_script (environ : gmap string string) (remote : llm)
    (w : widgets) (ss : session_state) (log : list string) (name_ endpoint key_ : string) :
  getenv environ "OPENAI_DEPLOYMENT_NAME" = Some name_ → name_ ≠ "" →
  getenv environ "AZURE_OPENAI_ENDPOINT" = Some endpoint → endpoint ≠ "" →
  getenv environ "OPENAI_API_KEY" = Some key_ → key_ ≠ "" →
  main environ remote w ss log
  = match script remote w ss log with
    | (Ok r, log') => (Ok (r.1, [], r.2), log')
    | (Raise e, log') => (Raise e, log')
    end.
Proof.
  intros H1 N1 H2 N2 H3 N3.
  assert (configured environ = true) as Hconf.
  { unfold configured. simpl. rewrite H1, H2, H3. simpl.
    by destruct name_, endpoint, key_. }
  unfold main. rewrite Hconf. simpl.
  unfold mbind at 1, M_bind at 1, mret, M_ret.
  by destruct (script remote w ss log) as [[r|e] log'].
Qed.

Example vertical_tab_refused : check_string (String "011" "x") = None.
Proof. vm_compute. reflexivity. Qed.

Example tab_and_newline_accepted :
  check_string (String "009" two_lines) = Some (String "009" two_lines).
Proof. vm_compute. reflexivity. Qed.

Example long_line_cut :
  (λ v, N.of_nat (String.length v))
    <$> check_string (Str.flat (replicate (N.to_nat 8000) "item "))
  = Some 32767%N.
Proof. vm_compute. reflexivity. Qed.

Example refused_line_stops_the_fill :
  let report := fill_template template3 ["Row A"; String "011" ""; "Row C"] in
  saved report = None
  ∧ shown report = [UiException (IllegalCharacterError (String "011" ""))]
  ∧ value (get_cell (workbook report) 2 2) = VStr "Row A"
  ∧ value (get_cell (workbook report) 3 2) = VNone
  ∧ value (get_cell (workbook report) 4 2) = VStr "keep".
Proof. vm_compute. repeat split. Qed.
